(** * Operator builder of qiskit-dynamics: symbolic operator trees, their
      flattening into normal-form dictionaries and their realization as
      matrices (builders/dynamical_operators.py), together with the custom
      binary-operation rule compiler exercised by
      test/dynamics/perturbation/test_custom_binary_op.py. *)

From Stdlib Require Import ZArith List String Ascii Bool Lia Ring.
Import ListNotations.
Local Open Scope string_scope.
Local Open Scope list_scope.
Local Open Scope Z_scope.

(** ** Scalars

    Python [complex], [float] and [int] coefficients are embedded in one
    exact commutative ring with an imaginary unit.  Rounding of floating
    point numbers is outside the model. *)

Class Scalar := {
  C : Type;
  c0 : C;
  c1 : C;
  ci : C;
  cadd : C -> C -> C;
  cmul : C -> C -> C;
  csub : C -> C -> C;
  copp : C -> C;
  c_ring : ring_theory c0 c1 cadd cmul csub copp (@eq C);
  ci_square : cmul ci ci = copp c1
}.

(** Gaussian integers: the instance on which the definitions are run. *)
Module Gauss.

Definition t : Type := (Z * Z)%type.
Definition zero : t := (0, 0).
Definition one : t := (1, 0).
Definition i : t := (0, 1).
Definition add (x y : t) : t := (fst x + fst y, snd x + snd y).
Definition mul (x y : t) : t :=
  (fst x * fst y - snd x * snd y, fst x * snd y + snd x * fst y).
Definition opp (x : t) : t := (- fst x, - snd x).
Definition sub (x y : t) : t := add x (opp y).
Definition of_Z (z : Z) : t := (z, 0).

Lemma ring : ring_theory zero one add mul sub opp (@eq t).
Proof.
  constructor; unfold zero, one, add, mul, sub, opp;
    intros; repeat match goal with x : t |- _ => destruct x end;
    cbn [fst snd]; try reflexivity; f_equal; ring.
Qed.

Lemma i_square : mul i i = opp one.
Proof. reflexivity. Qed.

End Gauss.

#[export] Instance GaussZ : Scalar := {|
  C := Gauss.t;
  c0 := Gauss.zero;
  c1 := Gauss.one;
  ci := Gauss.i;
  cadd := Gauss.add;
  cmul := Gauss.mul;
  csub := Gauss.sub;
  copp := Gauss.opp;
  c_ring := Gauss.ring;
  ci_square := Gauss.i_square
|}.

(** ** Python values that the builder inspects *)

(** A subsystem identifier: any hashable value; integers and strings are
    the ones the package uses ([''] is the constructor's default). *)
Inductive pyid :=
| IdInt (z : Z)
| IdStr (s : string).

Definition pyid_eqb (a b : pyid) : bool :=
  match a, b with
  | IdInt x, IdInt y => Z.eqb x y
  | IdStr x, IdStr y => String.eqb x y
  | _, _ => false
  end.

Lemma pyid_eqb_spec a b : reflect (a = b) (pyid_eqb a b).
Proof.
  destruct a as [x|x], b as [y|y]; cbn; try (constructor; congruence).
  - destruct (Z.eqb_spec x y); constructor; congruence.
  - destruct (String.eqb_spec x y); constructor; congruence.
Qed.

Lemma pyid_eqb_refl a : pyid_eqb a a = true.
Proof. destruct (pyid_eqb_spec a a); congruence. Qed.

(** Exception classes of the Python hierarchy that this module can raise,
    directly or through an attribute, index or arithmetic fault. *)
Inductive pyclass :=
| ClsException
| ClsTypeError
| ClsAttributeError
| ClsIndexError
| ClsValueError.

(** [issubclass]: every class derives from [Exception]; no other pair of
    distinct classes listed here is related. *)
Definition issubclass (c base : pyclass) : bool :=
  match base, c with
  | ClsException, _ => true
  | ClsTypeError, ClsTypeError => true
  | ClsAttributeError, ClsAttributeError => true
  | ClsIndexError, ClsIndexError => true
  | ClsValueError, ClsValueError => true
  | _, _ => false
  end.

(** One constructor per [raise] site of dynamical_operators.py, carrying
    the values that the message interpolates, followed by the faults that
    the interpreter raises by itself.  [Unmodelled] is no exception of
    Python: it marks a malformed tree on which the program continues
    with values that this model does not represent. *)
Inductive exn :=
| AddOperandError                       (* line 77 *)
| MulOperandError                       (* line 111 *)
| UnknownOperatorType (s_type_unique : string) (dim : Z)   (* line 158 *)
| UnknownConcatenation (compound_type : string)            (* line 262 *)
| UnsupportedClass (type_name : string)                    (* line 310 *)
| MixedOperatorTypes                                       (* line 312 *)
| MissingSubsystem (system_id : pyid)                      (* line 340 *)
| AttributeError (type_name attribute : string)
| TypeError (what : string)
| IndexError
| ValueError (what : string)
| Unmodelled (what : string).

Definition exn_class (e : exn) : pyclass :=
  match e with
  | AttributeError _ _ => ClsAttributeError
  | TypeError _ => ClsTypeError
  | IndexError => ClsIndexError
  | ValueError _ => ClsValueError
  | _ => ClsException
  end.

(** ** The heap of key objects and the error monad

    [DynamicalOperatorKey] instances are compared by identity (see below),
    so flattening is run in a state monad whose state is the number of key
    objects allocated so far; a raised exception aborts the computation. *)
Definition M (A : Type) : Type := nat -> exn + (A * nat).

Definition ret {A} (a : A) : M A := fun n => inr (a, n).
Definition raise {A} (e : exn) : M A := fun _ => inl e.
Definition bind {A B} (m : M A) (k : A -> M B) : M B :=
  fun n => match m n with
           | inl e => inl e
           | inr (a, n') => k a n'
           end.

Notation "x <- m ;; k" := (bind m (fun x => k))
  (at level 61, m at next level, right associativity).

(** Pure fallible code. *)
Definition res (A : Type) : Type := (exn + A)%type.
Definition lift {A} (r : res A) : M A :=
  fun n => match r with inl e => inl e | inr a => inr (a, n) end.
Definition rbind {A B} (r : res A) (k : A -> res B) : res B :=
  match r with inl e => inl e | inr a => k a end.

Notation "x <-? r ;; k" := (rbind r (fun x => k))
  (at level 61, r at next level, right associativity).

Section Operators.
Context {SC : Scalar}.

(** ** DynamicalOperator: the expression node (lines 10-176) *)

Definition alias_table : Type := list (string * string).

(** The fields of a node.  [compound_ops] is [None] in a leaf, where no
    code path reads it; the empty list stands for it.  A slot of
    [compound_ops] holds a node or, in the second slot of a scalar
    product, a number; [pyval] is also the type of the right operand that
    Python hands to [__add__] and [__mul__]. *)
Inductive DynamicalOperator :=
| mkOp (system_id : pyid) (s_type s_type_unique : string)
    (aliases : alias_table) (compound_type : string)
    (compound_ops : list pyval)
with pyval :=
| VOp (op : DynamicalOperator)
| VScalar (c : C)
| VOther (type_name : string).

Definition system_id (o : DynamicalOperator) : pyid :=
  match o with mkOp i _ _ _ _ _ => i end.
Definition s_type (o : DynamicalOperator) : string :=
  match o with mkOp _ t _ _ _ _ => t end.
Definition s_type_unique (o : DynamicalOperator) : string :=
  match o with mkOp _ _ u _ _ _ => u end.
Definition aliases (o : DynamicalOperator) : alias_table :=
  match o with mkOp _ _ _ a _ _ => a end.
Definition compound_type (o : DynamicalOperator) : string :=
  match o with mkOp _ _ _ _ c _ => c end.
Definition compound_ops (o : DynamicalOperator) : list pyval :=
  match o with mkOp _ _ _ _ _ l => l end.

Definition DEFAULT_ALIASES : alias_table :=
  [("id", "i"); ("sx", "x"); ("sy", "y"); ("sz", "z")].

(** [str.lower], on the ASCII letters. *)
Definition lower_ascii (a : ascii) : ascii :=
  let n := nat_of_ascii a in
  if (Nat.leb 65 n && Nat.leb n 90)%bool then ascii_of_nat (n + 32) else a.

Fixpoint lower (s : string) : string :=
  match s with
  | EmptyString => EmptyString
  | String a r => String (lower_ascii a) (lower r)
  end.

(** [aliases.get(key, default)] *)
Fixpoint alias_get (al : alias_table) (key default : string) : string :=
  match al with
  | [] => default
  | (k, v) :: r => if String.eqb k key then v else alias_get r key default
  end.

(** [__init__] with the [s_type] setter of lines 67-72 inlined. *)
Definition __init__ (system_id : pyid) (s_type : string)
    (aliases : option alias_table) : DynamicalOperator :=
  let aliases := match aliases with
                 | None => DEFAULT_ALIASES
                 | Some a => a
                 end in
  let s := lower s_type in
  mkOp system_id s_type (alias_get aliases s s) aliases "" [].

Definition new_operator (self : DynamicalOperator) : DynamicalOperator :=
  __init__ (IdStr "") "" (Some (aliases self)).

Definition set_compound (o : DynamicalOperator) (ct : string)
    (ops : list pyval) : DynamicalOperator :=
  mkOp (system_id o) (s_type o) (s_type_unique o) (aliases o) ct ops.

Definition __add__ (self : DynamicalOperator) (other : pyval)
    : res DynamicalOperator :=
  match other with
  | VOp _ => inr (set_compound (new_operator self) "+" [VOp self; other])
  | _ => inl AddOperandError
  end.

Definition __mul__ (self : DynamicalOperator) (other : pyval)
    : res DynamicalOperator :=
  let result := new_operator self in
  match other with
  | VOp _ => inr (set_compound result "@" [VOp self; other])
  | VScalar _ => inr (set_compound result "*" [VOp self; other])
  | VOther _ => inl MulOperandError
  end.

Definition __rmul__ (self : DynamicalOperator) (other : pyval)
    : res DynamicalOperator :=
  __mul__ self other.

Definition __neg__ (self : DynamicalOperator) : res DynamicalOperator :=
  __rmul__ self (VScalar (copp c1)).

Definition __pos__ (self : DynamicalOperator) : DynamicalOperator := self.

(** The subclasses of lines 360-387. *)
Definition Sx (system_id : pyid) := __init__ system_id "x" None.
Definition Sy (system_id : pyid) := __init__ system_id "y" None.
Definition Sz (system_id : pyid) := __init__ system_id "z" None.
Definition Sp (system_id : pyid) := __init__ system_id "sp" None.
Definition Sm (system_id : pyid) := __init__ system_id "sm" None.
Definition Sid (system_id : pyid) := __init__ system_id "id" None.

(** ** DynamicalOperatorKey (lines 179-187)

    The class defines [__hash__] on the pair of its fields and no
    [__eq__]: two keys are equal exactly when they are the same object.
    [key_oid] is the identity of the object. *)
Record DynamicalOperatorKey := mkKey {
  key_oid : nat;
  key_system_id : pyid;
  key_s_type_unique : string
}.

Definition key_hash_eqb (a b : DynamicalOperatorKey) : bool :=
  pyid_eqb (key_system_id a) (key_system_id b)
  && String.eqb (key_s_type_unique a) (key_s_type_unique b).

Definition key_eqb (a b : DynamicalOperatorKey) : bool :=
  Nat.eqb (key_oid a) (key_oid b).

Definition key_tuple : Type := list DynamicalOperatorKey.

Fixpoint forall2b {A} (f : A -> A -> bool) (l1 l2 : list A) : bool :=
  match l1, l2 with
  | [], [] => true
  | a :: r1, b :: r2 => f a b && forall2b f r1 r2
  | _, _ => false
  end.

(** Tuples hash and compare element-wise; a dictionary slot matches a
    key when the hashes agree and [==] holds. *)
Definition tuple_match (a b : key_tuple) : bool :=
  forall2b key_hash_eqb a b && forall2b key_eqb a b.

(** The constructor call [DynamicalOperatorKey(op)] allocates an object. *)
Definition new_key (op : DynamicalOperator) : M DynamicalOperatorKey :=
  fun n => inr (mkKey n (system_id op) (s_type_unique op), S n).

(** ** Normal-form dictionaries: insertion-ordered, as Python's [dict] *)
Definition dict : Type := list (key_tuple * C).

Fixpoint dict_get (d : dict) (key : key_tuple) (default : C) : C :=
  match d with
  | [] => default
  | (k, v) :: r => if tuple_match k key then v else dict_get r key default
  end.

(** [d[key] = val]: an existing slot keeps its place and its key object. *)
Fixpoint dict_set (d : dict) (key : key_tuple) (val : C) : dict :=
  match d with
  | [] => [(key, val)]
  | (k, v) :: r =>
      if tuple_match k key then (k, val) :: r
      else (k, v) :: dict_set r key val
  end.

(** ** OperatorBuilder._build_one_dict (lines 214-263) *)

(** Lines 235-237, for one summand. *)
Definition sum_items (result op_dict : dict) : dict :=
  fold_left (fun result kv =>
               dict_set result (fst kv)
                 (cadd (snd kv) (dict_get result (fst kv) c0)))
            op_dict result.

(** Lines 243-248, for one factor. *)
Definition product_items (acc : key_tuple * C) (op_dict : dict)
    : key_tuple * C :=
  fold_left (fun acc kv => (fst acc ++ fst kv, cmul (snd acc) (snd kv)))
            op_dict acc.

(** Lines 256-257: the slots of [op_dict] are overwritten in place. *)
Definition scale_items (op_dict : dict) (scalar : C) : dict :=
  fold_left (fun d kv => dict_set d (fst kv) (cmul (snd kv) scalar))
            op_dict op_dict.

Definition no_compound_type (v : pyval) : exn :=
  match v with
  | VOther t => AttributeError t "compound_type"
  | _ => AttributeError "scalar" "compound_type"
  end.

(** The loop of lines 231-237 over the operands of a sum; [build] is the
    recursive call. *)
Definition sum_loop (build : DynamicalOperator -> M dict) :=
  fix sum_loop (ops : list pyval) (result : dict) : M dict :=
    match ops with
    | [] => ret result
    | VOp op :: rest =>
        op_dict <- build op ;;
        sum_loop rest (sum_items result op_dict)
    | v :: _ => raise (no_compound_type v)
    end.

(** The loop of lines 241-248 over the operands of a product; [acc] is
    the pair of [new_key] and [new_val]. *)
Definition product_loop (build : DynamicalOperator -> M dict) :=
  fix product_loop (ops : list pyval) (acc : key_tuple * C) : M dict :=
    match ops with
    | [] => ret [acc]
    | VOp op :: rest =>
        op_dict <- build op ;;
        product_loop rest (product_items acc op_dict)
    | v :: _ => raise (no_compound_type v)
    end.

(** Lines 253-258.  Both slots are read before the operand is
    flattened; a second slot that is not a number would put a node in the
    dictionary, which the dictionaries of this model cannot hold. *)
Definition scalar_product (build : DynamicalOperator -> M dict)
    (ops : list pyval) : M dict :=
  match ops with
  | op :: scalar :: _ =>
      match op with
      | VOp op =>
          op_dict <- build op ;;
          match scalar with
          | VScalar scalar => ret (scale_items op_dict scalar)
          | _ => raise (Unmodelled "non-numeric scalar slot")
          end
      | v => raise (no_compound_type v)
      end
  | _ => raise IndexError
  end.

Fixpoint _build_one_dict (operator : DynamicalOperator) : M dict :=
  match operator with
  | mkOp _ _ _ _ ct ops =>
      if String.eqb ct "+" then sum_loop _build_one_dict ops []
      else if String.eqb ct "@" then
        product_loop _build_one_dict ops ([], c1)
      else if String.eqb ct "*" then scalar_product _build_one_dict ops
      else if String.eqb ct "" then
        key <- new_key operator ;;
        ret [([key], c1)]
      else raise (UnknownConcatenation ct)
  end.

(** ** Matrices and the built-in primitives (lines 127-176)

    A two-dimensional numpy array is a list of rows. *)
Definition Matrix : Type := list (list C).

Definition zeros (dim : nat) : Matrix := repeat (repeat c0 dim) dim.

Definition identity (dim : nat) : Matrix :=
  map (fun i => map (fun j => if Nat.eqb i j then c1 else c0) (seq 0 dim))
      (seq 0 dim).

Definition sigma_x : Matrix := [[c0; c1]; [c1; c0]].
Definition sigma_y : Matrix := [[c0; copp ci]; [ci; c0]].
Definition sigma_z : Matrix := [[c1; c0]; [c0; copp c1]].
Definition sigma_p : Matrix := [[c0; c1]; [c0; c0]].
Definition sigma_m : Matrix := [[c0; c0]; [c1; c0]].
Definition proj_0 : Matrix := [[c1; c0]; [c0; c0]].
Definition proj_1 : Matrix := [[c0; c0]; [c0; c1]].

Definition get_operator_matrix (s_type_unique : string) (dim : Z)
    : res Matrix :=
  if String.eqb s_type_unique "null" then
    if dim <? 0 then inl (ValueError "negative dimensions are not allowed")
    else inr (zeros (Z.to_nat dim))
  else if (dim =? 2) && String.eqb s_type_unique "i" then
    inr (identity (Z.to_nat dim))
  else if (dim =? 2) && String.eqb s_type_unique "x" then inr sigma_x
  else if (dim =? 2) && String.eqb s_type_unique "y" then inr sigma_y
  else if (dim =? 2) && String.eqb s_type_unique "z" then inr sigma_z
  else if (dim =? 2) && String.eqb s_type_unique "sp" then inr sigma_p
  else if (dim =? 2) && String.eqb s_type_unique "sm" then inr sigma_m
  else if (dim =? 2) && String.eqb s_type_unique "0" then inr proj_0
  else if (dim =? 2) && String.eqb s_type_unique "1" then inr proj_1
  else inl (UnknownOperatorType s_type_unique dim).

(** [np.kron]: the block at row i, column j is [left[i][j] * right]. *)
Definition get_kron_matrix (left_matrix right_matrix : Matrix) : Matrix :=
  flat_map
    (fun ra => map (fun rb => flat_map (fun a => map (cmul a) rb) ra)
                   right_matrix)
    left_matrix.

Definition get_zeros_matrix (dim : Z) : res Matrix :=
  get_operator_matrix "null" dim.

(** [a @ b] for two square arrays of one size, the only use of line 346. *)
Definition dot (u v : list C) : C :=
  fold_left (fun acc ab => cadd acc (cmul (fst ab) (snd ab)))
            (combine u v) c0.

Definition column (b : Matrix) (j : nat) : list C :=
  map (fun row => nth j row c0) b.

Definition matmul (a b : Matrix) : Matrix :=
  map (fun ra => map (fun j => dot ra (column b j))
                     (seq 0 (List.length (hd [] b))))
      a.

(** [val * m] *)
Definition mscale (val : C) (m : Matrix) : Matrix :=
  map (map (cmul val)) m.

Fixpoint zip_with {A B D} (f : A -> B -> D) (l1 : list A) (l2 : list B)
    : list D :=
  match l1, l2 with
  | a :: r1, b :: r2 => f a b :: zip_with f r1 r2
  | _, _ => []
  end.

Fixpoint same_shape (a b : Matrix) : bool :=
  match a, b with
  | [], [] => true
  | ra :: a', rb :: b' =>
      Nat.eqb (List.length ra) (List.length rb) && same_shape a' b'
  | _, _ => false
  end.

(** [m += x].  Arrays of one shape are added entry by entry.  Line 356
    is reached only after the identities of line 325 exist, which makes
    every dimension 2 and both arrays squares of one size, so numpy's
    broadcasting of unequal shapes plays no part; unequal shapes are
    reported as its [ValueError]. *)
Definition iadd (m x : Matrix) : res Matrix :=
  if same_shape m x then inr (zip_with (zip_with cadd) m x)
  else inl (ValueError "operands could not be broadcast together").

(** ** OperatorBuilder (lines 190-357) *)

(** What a caller can put in [operators]: a flat dictionary, a node, or
    an object of some other type. *)
Inductive pyobj :=
| PDict (d : dict)
| POp (op : DynamicalOperator)
| POther (type_name : string).

(** [type(operators) != list] separates the two shapes of the argument. *)
Inductive pyarg :=
| One (o : pyobj)
| Many (l : list pyobj).

(** The ordered dictionary from subsystem id to dimension. *)
Definition subsystem_map : Type := list (pyid * Z).

Fixpoint subsystems_get (s : subsystem_map) (id : pyid) : option Z :=
  match s with
  | [] => None
  | (k, dim) :: r => if pyid_eqb k id then Some dim else subsystems_get r id
  end.

Inductive pyresult :=
| RNone
| RMatrix (m : Matrix)
| RList (l : list Matrix).

(** The fields that [build_matrices] stores on [self] for
    [_build_one_matrix]. *)
Record builder := mkBuilder {
  _ids : list pyid;
  _identity_matrices : list Matrix;
  _subsystems : subsystem_map;
  _total_dim : Z
}.

Fixpoint mapM {A B} (f : A -> M B) (l : list A) : M (list B) :=
  match l with
  | [] => ret []
  | a :: r => b <- f a ;; bs <- mapM f r ;; ret (b :: bs)
  end.

Fixpoint rmap {A B} (f : A -> res B) (l : list A) : res (list B) :=
  match l with
  | [] => inr []
  | a :: r => b <-? f a ;; bs <-? rmap f r ;; inr (b :: bs)
  end.

(** [self._build_one_dict(op)] on an arbitrary object. *)
Definition build_obj (o : pyobj) : M dict :=
  match o with
  | POp op => _build_one_dict op
  | PDict _ => raise (AttributeError "dict" "compound_type")
  | POther t => raise (AttributeError t "compound_type")
  end.



(** The dictionary [sub_matrices] of lines 335-347, keyed by subsystem
    id. *)
Definition sub_dict : Type := list (pyid * Matrix).

Fixpoint sub_get (s : sub_dict) (id : pyid) : option Matrix :=
  match s with
  | [] => None
  | (k, m) :: r => if pyid_eqb k id then Some m else sub_get r id
  end.

Fixpoint sub_set (s : sub_dict) (id : pyid) (m : Matrix) : sub_dict :=
  match s with
  | [] => [(id, m)]
  | (k, m') :: r =>
      if pyid_eqb k id then (k, m) :: r else (k, m') :: sub_set r id m
  end.

(** Lines 336-347. *)
Fixpoint key_loop (self : builder) (key : key_tuple)
    (sub_matrices : sub_dict) : res sub_dict :=
  match key with
  | [] => inr sub_matrices
  | operator_key :: rest =>
      let id := key_system_id operator_key in
      match subsystems_get (_subsystems self) id with
      | None => inl (MissingSubsystem id)
      | Some dim =>
          new_sub_matrix <-?
            get_operator_matrix (key_s_type_unique operator_key) dim ;;
          let new_sub_matrix :=
            match sub_get sub_matrices id with
            | Some sub_matrix => matmul sub_matrix new_sub_matrix
            | None => new_sub_matrix
            end in
          key_loop self rest (sub_set sub_matrices id new_sub_matrix)
      end
  end.

(** Lines 348-355; [op_matrix] is [None] exactly before the pass with
    [i == 0]. *)
Fixpoint kron_loop (ids : list pyid) (identities : list Matrix)
    (sub_matrices : sub_dict) (op_matrix : option Matrix)
    : option Matrix :=
  match ids, identities with
  | id :: ids', ident :: identities' =>
      let sub_matrix :=
        match sub_get sub_matrices id with
        | Some m => m
        | None => ident
        end in
      kron_loop ids' identities' sub_matrices
        (Some match op_matrix with
              | None => sub_matrix
              | Some m => get_kron_matrix m sub_matrix
              end)
  | _, _ => op_matrix
  end.

(** Lines 334-356. *)
Fixpoint term_loop (self : builder) (items : dict) (matrix : Matrix)
    : res Matrix :=
  match items with
  | [] => inr matrix
  | (key, val) :: rest =>
      sub_matrices <-? key_loop self key [] ;;
      match kron_loop (_ids self) (_identity_matrices self)
                      sub_matrices None with
      | None => inl (TypeError "complex * NoneType")
      | Some op_matrix =>
          matrix <-? iadd matrix (mscale val op_matrix) ;;
          term_loop self rest matrix
      end
  end.

Definition _build_one_matrix (self : builder) (operator_dict : pyobj)
    : res Matrix :=
  matrix <-? get_zeros_matrix (_total_dim self) ;;
  match operator_dict with
  | PDict d => term_loop self d matrix
  | POp _ => inl (AttributeError "DynamicalOperator" "items")
  | POther t => inl (AttributeError t "items")
  end.

(** Lines 304-312. *)
Fixpoint check_types (operators : list pyobj) (b_dictionaries : bool)
    : res bool :=
  match operators with
  | [] => inr b_dictionaries
  | PDict _ :: rest => check_types rest true
  | POther t :: _ => inl (UnsupportedClass t)
  | POp _ :: rest =>
      if b_dictionaries then inl MixedOperatorTypes
      else check_types rest b_dictionaries
  end.

(** Lines 297-300. *)
Definition total_dim (dims : list Z) : Z :=
  fold_left (fun t dim => if dim >? 0 then t * dim else t) dims 1.

(** [build_matrices] with [dyn_op] left at its default [None], so that
    the primitives are those of the class [DynamicalOperator]. *)
Definition build_matrices (operators : pyarg) (subsystems : subsystem_map)
    : M pyresult :=
  if Nat.eqb (List.length subsystems) 0 then ret RNone
  else
    let b_flatten := match operators with One _ => true | Many _ => false end in
    let operators := match operators with One o => [o] | Many l => l end in
    let dims := map snd subsystems in
    let _total_dim := total_dim dims in
    if Nat.eqb (List.length operators) 0 then
      m <- lift (get_zeros_matrix _total_dim) ;; ret (RMatrix m)
    else
      b_dictionaries <- lift (check_types operators false) ;;
      let _ids := map fst subsystems in
      operators_dict <-
        (if b_dictionaries : bool then ret operators
         else ds <- mapM build_obj operators ;; ret (map PDict ds)) ;;
      _identity_matrices <-
        lift (rmap (fun dim => get_operator_matrix "i" dim) dims) ;;
      let self := mkBuilder _ids _identity_matrices subsystems _total_dim in
      results <- lift (rmap (_build_one_matrix self) operators_dict) ;;
      if b_flatten then
        match results with
        | m :: _ => ret (RMatrix m)
        | [] => raise IndexError
        end
      else ret (RList results).

End Operators.

(** ** The custom binary-operation rule compiler

    The source of perturbation/custom_binary_op.py is not embedded here;
    its tests are the only code that shows it.  The definitions of this section follow the
    specification's section 4.4 and are checked against the tables that
    test_custom_binary_op.py expects. *)
Section CustomBinaryOp.
Context {SC : Scalar}.

















Variable V : Type.
Variable vzero : V.
Variable vadd : V -> V -> V.
Variable vscale : C -> V -> V.









End CustomBinaryOp.

(** ** Notions used to state the properties *)
Section Notions.
Context {SC : Scalar}.

(** The keys of a dictionary are pairwise different as dictionary
    keys: no slot matches a later one. *)
Fixpoint keys_wf (ks : list key_tuple) : Prop :=
  match ks with
  | [] => True
  | k :: r => Forall (fun k' => tuple_match k k' = false) r /\ keys_wf r
  end.

Definition dict_wf (d : dict) : Prop := keys_wf (map fst d).

(** Every coefficient multiplied by [scalar], keys and order kept. *)
Definition scale_dict (scalar : C) (d : dict) : dict :=
  map (fun kv => (fst kv, cmul (snd kv) scalar)) d.

(** A square array of side [n]. *)
Definition square (n : nat) (m : Matrix) : Prop :=
  List.length m = n /\ Forall (fun row => List.length row = n) m.

Definition madd (a b : Matrix) : Matrix := zip_with (zip_with cadd) a b.


(** A key that [_build_one_matrix] can realize: its subsystem is in the
    map and its type has a matrix at the subsystem's dimension. *)
Definition key_ok (subsystems : subsystem_map) (k : DynamicalOperatorKey)
    : bool :=
  match subsystems_get subsystems (key_system_id k) with
  | Some dim =>
      match get_operator_matrix (key_s_type_unique k) dim with
      | inr _ => true
      | inl _ => false
      end
  | None => false
  end.

Definition term_ok (subsystems : subsystem_map) (kv : key_tuple * C)
    : bool :=
  forallb (key_ok subsystems) (fst kv).

Definition all_qubits (subsystems : subsystem_map) : bool :=
  forallb (fun p => snd p =? 2) subsystems.

(** *** The realization as the specification words it (section 4.3)

    The elementary matrix of a two-level operator type. *)
Definition elementary (s_type_unique : string) : Matrix :=
  match get_operator_matrix s_type_unique 2 with
  | inr m => m
  | inl _ => []
  end.

(** The factor of subsystem [id] in a term: the identity when no key of
    the term acts on [id], else the product, in tuple order, of the
    elementary matrices of the keys that act on it. *)
Definition factor (id : pyid) (key : key_tuple) : Matrix :=
  match filter (fun k => pyid_eqb (key_system_id k) id) key with
  | [] => identity 2
  | k :: ks =>
      fold_left matmul
        (map (fun k => elementary (key_s_type_unique k)) ks)
        (elementary (key_s_type_unique k))
  end.

(** The Kronecker product across the map's id order. *)
Definition term_matrix (subsystems : subsystem_map) (key : key_tuple)
    : Matrix :=
  match map (fun p => factor (fst p) key) subsystems with
  | [] => []
  | m :: r => fold_left get_kron_matrix r m
  end.

(** Scaled by the coefficient and summed into the result. *)
Definition realize_dict (subsystems : subsystem_map) (d : dict) : Matrix :=
  fold_left
    (fun acc kv => madd acc (mscale (snd kv) (term_matrix subsystems (fst kv))))
    d (zeros (2 ^ List.length subsystems)%nat).

(** A dictionary has a slot for [key]. *)
Definition dict_mem (d : dict) (key : key_tuple) : bool :=
  existsb (fun kv => tuple_match (fst kv) key) d.


(** What [build_matrices] does for one dictionary once the type check
    is passed: lines 324-327. *)
Definition realize_one (subsystems : subsystem_map) (d : dict)
    : res Matrix :=
  _identity_matrices <-?
    rmap (fun dim => get_operator_matrix "i" dim) (map snd subsystems) ;;
  _build_one_matrix
    (mkBuilder (map fst subsystems) _identity_matrices subsystems
               (total_dim (map snd subsystems)))
    (PDict d).

(** The slot of one subsystem in [sub_matrices] while the keys [ks] that
    act on it are met, lines 343-347. *)
Definition acc_factor (o : option Matrix) (ks : key_tuple) : option Matrix :=
  fold_left
    (fun o k =>
       Some match o with
            | Some m => matmul m (elementary (key_s_type_unique k))
            | None => elementary (key_s_type_unique k)
            end)
    ks o.

(** Line 351. *)
Definition sub_or_identity (s : sub_dict) (id : pyid) : Matrix :=
  match sub_get s id with
  | Some m => m
  | None => identity 2
  end.

(** Induction on operator trees, through the operand lists. *)
Fixpoint operator_rect' (P : DynamicalOperator -> Prop)
    (H : forall id st stu al ct ops,
        Forall (fun v => match v with VOp o => P o | _ => True end) ops ->
        P (mkOp id st stu al ct ops))
    (o : DynamicalOperator) {struct o} : P o :=
  match o with
  | mkOp id st stu al ct ops =>
      H id st stu al ct ops
        ((fix aux (l : list pyval)
            : Forall (fun v => match v with VOp o => P o | _ => True end) l :=
            match l with
            | [] => Forall_nil _
            | v :: r =>
                Forall_cons v
                  (match v as v'
                     return match v' with VOp o => P o | _ => True end
                   with
                   | VOp o' => operator_rect' P H o'
                   | _ => I
                   end)
                  (aux r)
            end) ops)
  end.

End Notions.

(** ** Inputs of the runs on Gaussian integers *)
Module Inputs.

Definition X0 : DynamicalOperator := Sx (IdInt 0).
Definition Y0 : DynamicalOperator := Sy (IdInt 0).
Definition Z0 : DynamicalOperator := Sz (IdInt 0).
Definition one_qubit : subsystem_map := [(IdInt 0, 2)].
Definition two_qubits : subsystem_map := [(IdInt 0, 2); (IdInt 1, 2)].

Definition g (re im : Z) : C := (re, im).

End Inputs.

(** ** Further operations of the node, and notions for their properties *)
Section MoreNotions.
Context {SC : Scalar}.


(** [__deepcopy__] (lines 46-51): a new node is constructed from the
    id, the declared type and the alias table, which recomputes the
    unique type; the compound fields are copied, the operands deeply. *)
Fixpoint __deepcopy__ (self : DynamicalOperator) : DynamicalOperator :=
  match self with
  | mkOp id st _ al ct ops =>
      set_compound (__init__ id st (Some al)) ct
        (map (fun v => match v with
                       | VOp o => VOp (__deepcopy__ o)
                       | other => other
                       end) ops)
  end.

(** The trees that the constructor and the operators [+], [*] build. *)
Inductive built : DynamicalOperator -> Prop :=
| built_leaf id st al : built (__init__ id st al)
| built_add a b r :
    built a -> built b -> __add__ a (VOp b) = inr r -> built r
| built_mul a b r :
    built a -> built b -> __mul__ a (VOp b) = inr r -> built r
| built_scalar a c r :
    built a -> __mul__ a (VScalar c) = inr r -> built r.



(** The operator types that [get_operator_matrix] realizes at dimension
    2, besides 'null' (lines 142-157). *)
Definition two_level_types : list string :=
  ["i"; "x"; "y"; "z"; "sp"; "sm"; "0"; "1"].

(** The Kronecker product of a list of factors, from left to right. *)
Definition kron_all (ms : list Matrix) : Matrix :=
  match ms with
  | [] => []
  | m :: r => fold_left get_kron_matrix r m
  end.


(** The same dictionary with every key object allocated [delta] objects
    later. *)
Definition shift_key (delta : nat) (k : DynamicalOperatorKey)
    : DynamicalOperatorKey :=
  mkKey (key_oid k + delta) (key_system_id k) (key_s_type_unique k).

Definition shift_dict (delta : nat) (d : dict) : dict :=
  map (fun kv => (map (shift_key delta) (fst kv), snd kv)) d.

(** The outcome of a flattening that starts [delta] objects later. *)
Definition shifted (delta : nat) (r : exn + dict * nat) : exn + dict * nat :=
  match r with
  | inl e => inl e
  | inr (d, n') => inr (shift_dict delta d, (n' + delta)%nat)
  end.

End MoreNotions.

(** ** Further inputs of the runs on Gaussian integers *)
Module MoreInputs.
Import Inputs.

(** [Sx(0) + Sy(0)], [Sz(1)] and the keys of their leaves. *)
Definition X0_plus_Y0 : DynamicalOperator :=
  set_compound (new_operator X0) "+" [VOp X0; VOp Y0].
Definition Z1 : DynamicalOperator := Sz (IdInt 1).
Definition kx (n : nat) : DynamicalOperatorKey := mkKey n (IdInt 0) "x".
Definition ky (n : nat) : DynamicalOperatorKey := mkKey n (IdInt 0) "y".
Definition kz0 (n : nat) : DynamicalOperatorKey := mkKey n (IdInt 0) "z".

End MoreInputs.

(** * Properties *)

Section NodeArithmetic.
Context {SC : Scalar}.

Add Ring scalar_ring : c_ring.

(** ** Building nodes *)

Lemma new_operator_is_leaf (self : DynamicalOperator) :
  compound_type (new_operator self) = "" /\
  aliases (new_operator self) = aliases self.
Proof. destruct self; split; reflexivity. Qed.

Lemma Sx_fields (id : pyid) :
  Sx id = mkOp id "x" "x" DEFAULT_ALIASES "" [].
Proof. reflexivity. Qed.

Lemma Sz_fields (id : pyid) :
  Sz id = mkOp id "z" "z" DEFAULT_ALIASES "" [].
Proof. reflexivity. Qed.

Lemma build_leaf id st stu al ops (n : nat) :
  _build_one_dict (mkOp id st stu al "" ops) n =
    inr ([([mkKey n id stu], c1)], S n).
Proof. reflexivity. Qed.

(** C9, as amended: when the right operand is a node, addition returns
    a sum node whose operands are [self, other]; for every other operand
    it raises the exception of line 77, an instance of the base class
    [Exception], which is not a [TypeError]. *)
Theorem add_builds_sum_or_raises (self : DynamicalOperator) (other : pyval) :
  match other with
  | VOp o =>
      exists r, __add__ self other = inr r /\
                compound_type r = "+" /\
                compound_ops r = [VOp self; VOp o]
  | _ =>
      __add__ self other = inl AddOperandError /\
      exn_class AddOperandError = ClsException /\
      issubclass (exn_class AddOperandError) ClsTypeError = false
  end.
Proof.
  destruct other as [o|c|t]; cbn.
  - eexists; repeat split.
  - repeat split.
  - repeat split.
Qed.

(** Left and right multiplication by a number return one and the same
    scalar-product node: operand in slot 0, number in slot 1. *)
Lemma mul_scalar_node (a : DynamicalOperator) (c : C) :
  exists r, __mul__ a (VScalar c) = inr r /\
            __rmul__ a (VScalar c) = inr r /\
            compound_type r = "*" /\
            compound_ops r = [VOp a; VScalar c].
Proof. eexists; repeat split. Qed.

(** ** Flattening at the inputs of the specification's examples *)

(** C1: flattening [Sx(0) + Sx(0)] leaves two entries of coefficient 1,
    one per key object, where the claim has one entry of coefficient 2.
    The two keys carry the same fields and differ in identity only. *)
Theorem flatten_sum_of_equal_leaves_has_two_entries (n : nat) :
  exists s,
    __add__ (Sx (IdInt 0)) (VOp (Sx (IdInt 0))) = inr s /\
    _build_one_dict s n =
      inr ([([mkKey n (IdInt 0) "x"], c1);
            ([mkKey (S n) (IdInt 0) "x"], c1)], S (S n)) /\
    key_hash_eqb (mkKey n (IdInt 0) "x") (mkKey (S n) (IdInt 0) "x") = true /\
    key_eqb (mkKey n (IdInt 0) "x") (mkKey (S n) (IdInt 0) "x") = false.
Proof.
  rewrite Sx_fields.
  eexists; split; [reflexivity|].
  assert (E : Nat.eqb n (S n) = false) by (apply Nat.eqb_neq; lia).
  repeat split.
  - cbn. unfold bind, ret, sum_items, tuple_match, key_eqb; cbn.
    rewrite E; cbn.
    replace (cadd c1 c0) with c1 by ring. reflexivity.
  - exact E.
Qed.

(** C10: with an empty subsystem map the call returns [None] whatever
    [operators] is, without reading it and without allocating; the type
    check that a non-empty map lets run is not reached, as an argument
    of an unsupported type shows. *)
Theorem build_matrices_empty_subsystems (operators : pyarg) (n : nat) :
  build_matrices operators [] n = inr (RNone, n) /\
  forall t p subsystems,
    build_matrices (One (POther t)) [] n = inr (RNone, n) /\
    build_matrices (One (POther t)) (p :: subsystems) n =
      inl (UnsupportedClass t).
Proof.
  split; [reflexivity|]. intros t p subsystems.
  split; [reflexivity|].
  unfold build_matrices. cbn [List.length Nat.eqb check_types].
  reflexivity.
Qed.

(** C6: a list that starts with a node and continues with a dictionary
    passes the type check of lines 304-312; the call fails later, inside
    [_build_one_matrix], with an [AttributeError].  In the other order
    the mismatch is reported. *)
Theorem mixed_list_node_first_escapes_check
    (a : DynamicalOperator) (d : dict) (n : nat) :
  check_types [POp a; PDict d] false = inr true /\
  build_matrices (Many [POp a; PDict d]) [(IdInt 0, 2)] n =
    inl (AttributeError "DynamicalOperator" "items") /\
  build_matrices (Many [PDict d; POp a]) [(IdInt 0, 2)] n =
    inl MixedOperatorTypes.
Proof. repeat split. Qed.

End NodeArithmetic.

(** C9, the claim as worded: the exception raised for a numeric right
    operand is not of class [TypeError]. *)
Lemma add_scalar_is_not_a_TypeError :
  ~ (exists e,
       __add__ (Sx (IdInt 0)) (VScalar (c1 : @C GaussZ)) = inl e /\
       issubclass (exn_class e) ClsTypeError = true).
Proof.
  intros [e [H1 H2]]. cbn in H1. inversion H1; subst. discriminate H2.
Qed.

(** ** Dictionaries produced by flattening *)
Section Flattening.
Context {SC : Scalar}.

Add Ring scalar_ring_flat : c_ring.

Lemma forall2b_refl {A} (f : A -> A -> bool) (l : list A) :
  (forall a, f a a = true) -> forall2b f l l = true.
Proof.
  intros Hf; induction l as [|a r IH]; cbn; [reflexivity|].
  now rewrite Hf, IH.
Qed.

Lemma tuple_match_refl (k : key_tuple) : tuple_match k k = true.
Proof.
  unfold tuple_match.
  rewrite !forall2b_refl; [reflexivity| |].
  - intros a; apply Nat.eqb_refl.
  - intros a; unfold key_hash_eqb.
    now rewrite pyid_eqb_refl, String.eqb_refl.
Qed.

Lemma dict_set_keys (d : dict) (key : key_tuple) (val : C) :
  map fst (dict_set d key val) =
    if dict_mem d key then map fst d else map fst d ++ [key].
Proof.
  unfold dict_mem.
  induction d as [|[k v] r IH]; cbn; [reflexivity|].
  destruct (tuple_match k key); cbn; [reflexivity|].
  rewrite IH. now destruct (existsb _ r).
Qed.

Lemma dict_mem_false (d : dict) (key : key_tuple) :
  dict_mem d key = false ->
  Forall (fun k' => tuple_match k' key = false) (map fst d).
Proof.
  unfold dict_mem.
  induction d as [|[k v] r IH]; cbn; intros H; constructor.
  - now destruct (tuple_match k key).
  - apply IH. now destruct (tuple_match k key).
Qed.

Lemma keys_wf_snoc (ks : list key_tuple) (key : key_tuple) :
  keys_wf ks ->
  Forall (fun k' => tuple_match k' key = false) ks ->
  keys_wf (ks ++ [key]).
Proof.
  induction ks as [|k r IH]; cbn; intros Hwf Hno.
  - split; [constructor|exact I].
  - destruct Hwf as [Hk Hr]. inversion Hno; subst. split.
    + apply Forall_app; split; [exact Hk|]. now constructor.
    + now apply IH.
Qed.

Lemma dict_set_wf (d : dict) (key : key_tuple) (val : C) :
  dict_wf d -> dict_wf (dict_set d key val).
Proof.
  unfold dict_wf; intros Hwf. rewrite dict_set_keys.
  destruct (dict_mem d key) eqn:E; [exact Hwf|].
  apply keys_wf_snoc; [exact Hwf|]. now apply dict_mem_false.
Qed.

Lemma sum_items_wf (op_dict result : dict) :
  dict_wf result -> dict_wf (sum_items result op_dict).
Proof.
  unfold sum_items. revert result.
  induction op_dict as [|kv r IH]; cbn; intros result Hwf; [exact Hwf|].
  apply IH. now apply dict_set_wf.
Qed.

Lemma dict_set_skip (pre suf : dict) (key : key_tuple) (val : C) :
  Forall (fun k' => tuple_match k' key = false) (map fst pre) ->
  dict_set (pre ++ suf) key val = pre ++ dict_set suf key val.
Proof.
  induction pre as [|[k v] r IH]; cbn; intros H; [reflexivity|].
  inversion H; subst. cbn in *.
  match goal with E : tuple_match k key = false |- _ => rewrite E end.
  now rewrite IH.
Qed.

Lemma keys_wf_app_inv (pre : list key_tuple) (key : key_tuple)
    (suf : list key_tuple) :
  keys_wf (pre ++ key :: suf) ->
  Forall (fun k' => tuple_match k' key = false) pre.
Proof.
  induction pre as [|k r IH]; cbn; intros H; [constructor|].
  destruct H as [Hk Hr]. constructor.
  - apply Forall_app in Hk. destruct Hk as [_ Hk]. now inversion Hk.
  - now apply IH.
Qed.

Lemma scale_fold (scalar : C) (suf pre : dict) :
  dict_wf (pre ++ suf) ->
  fold_left (fun d kv => dict_set d (fst kv) (cmul (snd kv) scalar))
            suf (scale_dict scalar pre ++ suf)
  = scale_dict scalar (pre ++ suf).
Proof.
  revert pre. induction suf as [|[k v] r IH]; intros pre Hwf; cbn.
  - now rewrite !app_nil_r.
  - rewrite dict_set_skip.
    + cbn. rewrite tuple_match_refl.
      replace (scale_dict scalar pre ++ (k, cmul v scalar) :: r)
        with (scale_dict scalar (pre ++ [(k, v)]) ++ r).
      * rewrite IH; [now rewrite <- app_assoc|].
        now rewrite <- app_assoc.
      * unfold scale_dict. rewrite map_app, <- app_assoc. reflexivity.
    + unfold scale_dict. rewrite map_map. cbn.
      unfold dict_wf in Hwf. rewrite map_app in Hwf. cbn in Hwf.
      now apply keys_wf_app_inv in Hwf.
Qed.

(** Overwriting the slots one by one multiplies every coefficient. *)
Lemma scale_items_wf (scalar : C) (d : dict) :
  dict_wf d -> scale_items d scalar = scale_dict scalar d.
Proof. intros H. exact (scale_fold scalar d [] H). Qed.

Lemma scale_dict_wf (scalar : C) (d : dict) :
  dict_wf d -> dict_wf (scale_dict scalar d).
Proof.
  unfold dict_wf, scale_dict. now rewrite map_map.
Qed.

Lemma sum_loop_wf (build : DynamicalOperator -> M dict) (ops : list pyval) :
  forall result n d n',
    dict_wf result ->
    sum_loop build ops result n = inr (d, n') -> dict_wf d.
Proof.
  induction ops as [|v r IH]; cbn; intros result n d n' Hwf E.
  - unfold ret in E. inversion E; subst. exact Hwf.
  - destruct v as [o|c|t]; try discriminate E.
    unfold bind in E. destruct (build o n) as [e|[od n1]]; [discriminate|].
    eapply IH; [|exact E]. now apply sum_items_wf.
Qed.

Lemma product_loop_single (build : DynamicalOperator -> M dict)
    (ops : list pyval) :
  forall acc n d n',
    product_loop build ops acc n = inr (d, n') -> exists kv, d = [kv].
Proof.
  induction ops as [|v r IH]; cbn; intros acc n d n' E.
  - unfold ret in E. inversion E; subst. now eexists.
  - destruct v as [o|c|t]; try discriminate E.
    unfold bind in E. destruct (build o n) as [e|[od n1]]; [discriminate|].
    eapply IH; exact E.
Qed.

(** Flattening always returns a dictionary with distinct keys. *)
Lemma _build_one_dict_wf (operator : DynamicalOperator) :
  forall n d n', _build_one_dict operator n = inr (d, n') -> dict_wf d.
Proof.
  induction operator as [id st stu al ct ops IH] using operator_rect'.
  intros n d n'. cbn.
  destruct (String.eqb ct "+"); [|destruct (String.eqb ct "@");
    [|destruct (String.eqb ct "*"); [|destruct (String.eqb ct "")]]].
  - intros E. eapply sum_loop_wf; [|exact E]. exact I.
  - intros E. apply product_loop_single in E. destruct E as [kv ->].
    cbn. split; [constructor|exact I].
  - unfold scalar_product.
    destruct ops as [|v1 [|v2 r]]; try discriminate.
    destruct v1 as [o|c|t]; try discriminate.
    unfold bind. destruct (_build_one_dict o n) as [e|[od n1]] eqn:Eo;
      [discriminate|].
    destruct v2 as [o2|c|t]; try discriminate.
    unfold ret. intros E; inversion E; subst.
    inversion IH as [|? ? Ho _]; subst. cbn in Ho.
    specialize (Ho _ _ _ Eo).
    rewrite scale_items_wf by exact Ho. now apply scale_dict_wf.
  - unfold bind, new_key, ret. intros E; inversion E; subst.
    cbn. split; [constructor|exact I].
  - discriminate.
Qed.

End Flattening.

(** ** Realization as matrices *)
Section Realization.
Context {SC : Scalar}.

Add Ring scalar_ring_real : c_ring.

(** *** Scaling commutes with the accumulation of terms *)








Lemma get_zeros_matrix_inr (dim : Z) (z : Matrix) :
  get_zeros_matrix dim = inr z -> z = zeros (Z.to_nat dim).
Proof.
  unfold get_zeros_matrix, get_operator_matrix. cbn.
  destruct (dim <? 0); intros E; now inversion E.
Qed.


(** *** Shapes *)

Lemma square_zeros (n : nat) : square n (zeros n).
Proof.
  unfold square, zeros. split; [apply repeat_length|].
  apply Forall_forall. intros r Hr. apply repeat_spec in Hr. subst.
  apply repeat_length.
Qed.

Lemma square_identity (n : nat) : square n (identity n).
Proof.
  unfold square, identity. split; [now rewrite length_map, length_seq|].
  apply Forall_forall. intros r Hr.
  apply in_map_iff in Hr. destruct Hr as [i [<- _]].
  now rewrite length_map, length_seq.
Qed.

Lemma get_operator_matrix_square (s : string) (dim : Z) (m : Matrix) :
  get_operator_matrix s dim = inr m -> square (Z.to_nat dim) m.
Proof.
  unfold get_operator_matrix.
  destruct (String.eqb s "null").
  - destruct (dim <? 0); intros E; inversion E. apply square_zeros.
  - destruct (Z.eqb_spec dim 2) as [->|]; cbn [andb]; [|discriminate].
    repeat match goal with
           | |- context [String.eqb s ?t] => destruct (String.eqb s t)
           end;
      intros E; inversion E;
      try apply square_identity;
      (split; [reflexivity|repeat constructor]).
Qed.

Lemma square_matmul (n : nat) (a b : Matrix) :
  square n a -> square n b -> square n (matmul a b).
Proof.
  unfold square, matmul. intros [La Ra] [Lb Rb]. split.
  - now rewrite length_map.
  - apply Forall_forall. intros r Hr.
    apply in_map_iff in Hr. destruct Hr as [ra [<- _]].
    rewrite length_map, length_seq.
    destruct b as [|rb b]; cbn in *; [exact Lb|].
    now inversion Rb.
Qed.

Lemma length_flat_map_const {A B} (f : A -> list B) (l : list A) (m : nat) :
  (forall a, In a l -> List.length (f a) = m) ->
  List.length (flat_map f l) = (List.length l * m)%nat.
Proof.
  induction l as [|a l IH]; cbn; intros H; [reflexivity|].
  rewrite length_app, H, IH by auto. reflexivity.
Qed.

Lemma square_kron (p q : nat) (a b : Matrix) :
  square p a -> square q b -> square (p * q) (get_kron_matrix a b).
Proof.
  unfold square, get_kron_matrix. intros [La Ra] [Lb Rb]. split.
  - rewrite (length_flat_map_const _ _ q); [now rewrite La|].
    intros ra _. now rewrite length_map.
  - apply Forall_forall. intros r Hr.
    apply in_flat_map in Hr. destruct Hr as [ra [Hra Hr]].
    apply in_map_iff in Hr. destruct Hr as [rb [<- Hrb]].
    rewrite Forall_forall in Ra, Rb.
    rewrite (length_flat_map_const _ _ q).
    + now rewrite (Ra _ Hra).
    + intros x _. rewrite length_map. now apply Rb.
Qed.

Lemma square_mscale (n : nat) (c : C) (m : Matrix) :
  square n m -> square n (mscale c m).
Proof.
  unfold square, mscale. intros [L R]. split; [now rewrite length_map|].
  apply Forall_forall. intros r Hr.
  apply in_map_iff in Hr. destruct Hr as [r0 [<- Hr0]].
  rewrite length_map. rewrite Forall_forall in R. now apply R.
Qed.

Lemma length_zip_with {A B D} (f : A -> B -> D) (l1 : list A) (l2 : list B) :
  List.length l1 = List.length l2 ->
  List.length (zip_with f l1 l2) = List.length l1.
Proof.
  revert l2; induction l1 as [|a l1 IH]; intros [|b l2]; cbn; intros H;
    try reflexivity; try discriminate.
  now rewrite IH by lia.
Qed.

Lemma rows_same_shape (n : nat) (a b : Matrix) :
  List.length a = List.length b ->
  Forall (fun row => List.length row = n) a ->
  Forall (fun row => List.length row = n) b ->
  same_shape a b = true /\
  Forall (fun row => List.length row = n) (madd a b).
Proof.
  unfold madd.
  revert b; induction a as [|ra a IH]; intros [|rb b]; cbn; intros L Ha Hb;
    try discriminate; [split; [reflexivity|constructor]|].
  inversion Ha; subst. inversion Hb; subst.
  destruct (IH b) as [E F]; [lia|assumption|assumption|].
  split.
  - rewrite E. replace (List.length rb) with (List.length ra) by congruence.
    now rewrite Nat.eqb_refl.
  - constructor; [|exact F]. now rewrite length_zip_with by congruence.
Qed.

Lemma iadd_square (n : nat) (a b : Matrix) :
  square n a -> square n b ->
  iadd a b = inr (madd a b) /\ square n (madd a b).
Proof.
  unfold square, iadd. intros [La Ra] [Lb Rb].
  destruct (rows_same_shape n a b) as [E F]; [congruence|assumption..|].
  rewrite E. split; [reflexivity|]. split; [|exact F].
  unfold madd. rewrite length_zip_with; congruence.
Qed.

Lemma square_kron_fold (r : list Matrix) :
  forall (a : nat) (m : Matrix),
    square a m -> Forall (square 2) r ->
    square (a * 2 ^ List.length r) (fold_left get_kron_matrix r m).
Proof.
  induction r as [|x r IH]; cbn; intros a m Hm Hr.
  - now rewrite Nat.mul_1_r.
  - inversion Hr; subst.
    replace (a * (2 ^ List.length r + (2 ^ List.length r + 0)))%nat
      with (a * 2 * 2 ^ List.length r)%nat by lia.
    apply IH; [|assumption]. now apply square_kron.
Qed.

(** Equality of explicit rows and matrices, entry by entry. *)
Ltac entrywise :=
  repeat match goal with
         | |- (_ :: _) = (_ :: _) => apply f_equal2
         | |- [] = [] => reflexivity
         end.

(** *** The call on a single node or dictionary, spelled out *)

Lemma build_matrices_one_dict (subsystems : subsystem_map) (d : dict)
    (n : nat) :
  subsystems <> [] ->
  build_matrices (One (PDict d)) subsystems n =
    match realize_one subsystems d with
    | inl e => inl e
    | inr m => inr (RMatrix m, n)
    end.
Proof.
  intros Hne. unfold build_matrices, realize_one.
  destruct (Nat.eqb (List.length subsystems) 0) eqn:E.
  { destruct subsystems; [congruence|discriminate]. }
  cbn [List.length Nat.eqb check_types].
  unfold bind, lift, ret, rbind.
  destruct (rmap (fun dim => get_operator_matrix "i" dim)
                 (map snd subsystems)) as [e|ids]; [reflexivity|].
  cbn [rmap]. unfold rbind.
  destruct (_build_one_matrix _ (PDict d)) as [e|m]; reflexivity.
Qed.

Lemma build_matrices_one_op (subsystems : subsystem_map)
    (a : DynamicalOperator) (n : nat) :
  subsystems <> [] ->
  build_matrices (One (POp a)) subsystems n =
    match _build_one_dict a n with
    | inl e => inl e
    | inr (d, n') =>
        match realize_one subsystems d with
        | inl e => inl e
        | inr m => inr (RMatrix m, n')
        end
    end.
Proof.
  intros Hne. unfold build_matrices, realize_one.
  destruct (Nat.eqb (List.length subsystems) 0) eqn:E.
  { destruct subsystems; [congruence|discriminate]. }
  cbn [List.length Nat.eqb check_types mapM build_obj].
  unfold bind, lift, ret, rbind.
  destruct (_build_one_dict a n) as [e|[d n']]; [reflexivity|].
  destruct (rmap (fun dim => get_operator_matrix "i" dim)
                 (map snd subsystems)) as [e|ids]; [reflexivity|].
  cbn [map rmap]. unfold rbind.
  destruct (_build_one_matrix _ (PDict d)) as [e|m]; reflexivity.
Qed.


Lemma build_scalar_product (a : DynamicalOperator) (c : C) (n : nat) :
  _build_one_dict (set_compound (new_operator a) "*" [VOp a; VScalar c]) n =
    match _build_one_dict a n with
    | inl e => inl e
    | inr (d, n') => inr (scale_dict c d, n')
    end.
Proof.
  change (_build_one_dict
            (set_compound (new_operator a) "*" [VOp a; VScalar c]) n)
    with (bind (_build_one_dict a)
               (fun op_dict => ret (scale_items op_dict c)) n).
  unfold bind.
  destruct (_build_one_dict a n) as [e|[d n']] eqn:Ea; [reflexivity|].
  apply _build_one_dict_wf in Ea. unfold ret.
  now rewrite scale_items_wf.
Qed.

(** *** The loops of [_build_one_matrix] on realizable terms *)

Lemma acc_factor_some (ks : key_tuple) (m : Matrix) :
  acc_factor (Some m) ks =
  Some (fold_left matmul
          (map (fun k => elementary (key_s_type_unique k)) ks) m).
Proof.
  revert m; induction ks as [|k ks IH]; intros m; cbn; [reflexivity|].
  apply IH.
Qed.

Lemma factor_acc (id : pyid) (key : key_tuple) :
  factor id key =
    match acc_factor None
            (filter (fun k => pyid_eqb (key_system_id k) id) key) with
    | Some m => m
    | None => identity 2
    end.
Proof.
  unfold factor.
  destruct (filter _ key) as [|k ks]; cbn; [reflexivity|].
  fold (acc_factor (Some (elementary (key_s_type_unique k))) ks).
  now rewrite acc_factor_some.
Qed.

Lemma subsystems_get_qubit (subsystems : subsystem_map) (id : pyid)
    (dim : Z) :
  all_qubits subsystems = true ->
  subsystems_get subsystems id = Some dim -> dim = 2.
Proof.
  unfold all_qubits.
  induction subsystems as [|[k d] r IH]; cbn; intros H E; [discriminate|].
  apply andb_prop in H. destruct H as [Hd Hr].
  destruct (pyid_eqb k id).
  - inversion E; subst. now apply Z.eqb_eq.
  - now apply IH.
Qed.

Lemma key_ok_elementary (subsystems : subsystem_map)
    (k : DynamicalOperatorKey) :
  all_qubits subsystems = true ->
  key_ok subsystems k = true ->
  subsystems_get subsystems (key_system_id k) = Some 2 /\
  get_operator_matrix (key_s_type_unique k) 2 =
    inr (elementary (key_s_type_unique k)) /\
  square 2 (elementary (key_s_type_unique k)).
Proof.
  unfold key_ok, elementary. intros Hq Hk.
  destruct (subsystems_get subsystems (key_system_id k)) as [dim|] eqn:E;
    [|discriminate].
  assert (dim = 2) by (eapply subsystems_get_qubit; eassumption). subst.
  destruct (get_operator_matrix (key_s_type_unique k) 2) as [e|m] eqn:Em;
    [discriminate|].
  split; [reflexivity|]. split; [reflexivity|].
  apply get_operator_matrix_square in Em. exact Em.
Qed.

Lemma sub_get_set (s : sub_dict) (k : pyid) (m : Matrix) (id : pyid) :
  sub_get (sub_set s k m) id =
    if pyid_eqb k id then Some m else sub_get s id.
Proof.
  induction s as [|[k' m'] r IH]; cbn.
  - now destruct (pyid_eqb k id).
  - destruct (pyid_eqb_spec k' k) as [->|Hk]; cbn.
    + now destruct (pyid_eqb k id).
    + destruct (pyid_eqb_spec k' id) as [->|Hid].
      * destruct (pyid_eqb_spec k id); [congruence|reflexivity].
      * apply IH.
Qed.

Lemma key_loop_ok (self : builder) (key : key_tuple) :
  all_qubits (_subsystems self) = true ->
  forallb (key_ok (_subsystems self)) key = true ->
  forall s0, exists s,
    key_loop self key s0 = inr s /\
    forall id,
      sub_get s id =
      acc_factor (sub_get s0 id)
        (filter (fun k => pyid_eqb (key_system_id k) id) key).
Proof.
  intros Hq. induction key as [|k key IH]; cbn [forallb]; intros Hk s0.
  - exists s0. split; reflexivity.
  - apply andb_prop in Hk. destruct Hk as [Hk Hrest].
    destruct (key_ok_elementary _ _ Hq Hk) as [Eg [Em _]].
    cbn [key_loop]. rewrite Eg, Em. cbn [rbind].
    destruct (IH Hrest
                (sub_set s0 (key_system_id k)
                   match sub_get s0 (key_system_id k) with
                   | Some sub_matrix =>
                       matmul sub_matrix (elementary (key_s_type_unique k))
                   | None => elementary (key_s_type_unique k)
                   end)) as [s [Es Hs]].
    exists s. split; [exact Es|]. intros id.
    rewrite Hs, sub_get_set. cbn [filter].
    destruct (pyid_eqb_spec (key_system_id k) id) as [<-|Hne];
      reflexivity.
Qed.

Lemma key_loop_missing (self : builder) (kpre : key_tuple)
    (k : DynamicalOperatorKey) (kpost : key_tuple) :
  all_qubits (_subsystems self) = true ->
  forallb (key_ok (_subsystems self)) kpre = true ->
  subsystems_get (_subsystems self) (key_system_id k) = None ->
  forall s0,
    key_loop self (kpre ++ k :: kpost) s0 =
    inl (MissingSubsystem (key_system_id k)).
Proof.
  intros Hq. induction kpre as [|k0 kpre IH]; cbn [forallb app];
    intros Hk Hnone s0.
  - cbn [key_loop]. now rewrite Hnone.
  - apply andb_prop in Hk. destruct Hk as [Hk Hrest].
    destruct (key_ok_elementary _ _ Hq Hk) as [Eg [Em _]].
    cbn [key_loop]. rewrite Eg, Em. cbn [rbind]. now apply IH.
Qed.

Lemma kron_loop_fold (s : sub_dict) (l : subsystem_map) :
  forall acc,
    kron_loop (map fst l) (map (fun _ => identity 2) l) s (Some acc) =
    Some (fold_left get_kron_matrix
            (map (fun p => sub_or_identity s (fst p)) l) acc).
Proof.
  induction l as [|p l IH]; intros acc; cbn; [reflexivity|].
  now rewrite IH.
Qed.

Lemma identities_of_qubits (subsystems : subsystem_map) :
  all_qubits subsystems = true ->
  rmap (fun dim => get_operator_matrix "i" dim) (map snd subsystems) =
  inr (map (fun _ => identity 2) subsystems).
Proof.
  unfold all_qubits.
  induction subsystems as [|[k d] r IH]; cbn [forallb map snd rmap];
    intros H; [reflexivity|].
  apply andb_prop in H. destruct H as [Hd Hr].
  apply Z.eqb_eq in Hd. subst d. rewrite (IH Hr). reflexivity.
Qed.

Lemma total_dim_fold (dims : list Z) :
  forall t, forallb (fun d => d =? 2) dims = true ->
    fold_left (fun t dim => if dim >? 0 then t * dim else t) dims t =
    t * 2 ^ Z.of_nat (List.length dims).
Proof.
  induction dims as [|d dims IH]; intros t H.
  - cbn. lia.
  - cbn [forallb] in H. apply andb_prop in H. destruct H as [Hd Hr].
    apply Z.eqb_eq in Hd. subst d.
    cbn [fold_left List.length]. rewrite IH by assumption.
    rewrite Nat2Z.inj_succ, Z.pow_succ_r by lia.
    change (2 >? 0) with true. cbv iota. lia.
Qed.

Lemma total_dim_of_qubits (subsystems : subsystem_map) :
  all_qubits subsystems = true ->
  Z.to_nat (total_dim (map snd subsystems)) =
  (2 ^ List.length subsystems)%nat.
Proof.
  intros H. unfold total_dim. rewrite total_dim_fold.
  - rewrite length_map, Z.mul_1_l.
    rewrite <- (Nat2Z.id (2 ^ List.length subsystems)).
    f_equal. now rewrite Nat2Z.inj_pow.
  - unfold all_qubits in H. rewrite <- H. clear H.
    induction subsystems as [|p l IH]; cbn; [reflexivity|].
    now rewrite IH.
Qed.

Lemma square_fold_matmul (ms : list Matrix) :
  forall m, square 2 m -> Forall (square 2) ms ->
            square 2 (fold_left matmul ms m).
Proof.
  induction ms as [|x ms IH]; cbn; intros m Hm Hms; [exact Hm|].
  inversion Hms; subst. apply IH; [|assumption]. now apply square_matmul.
Qed.

Lemma square_factor (subsystems : subsystem_map) (id : pyid)
    (key : key_tuple) :
  all_qubits subsystems = true ->
  forallb (key_ok subsystems) key = true ->
  square 2 (factor id key).
Proof.
  intros Hq Hk. unfold factor.
  assert (Hf : Forall (fun k => square 2 (elementary (key_s_type_unique k)))
                 (filter (fun k => pyid_eqb (key_system_id k) id) key)).
  { apply Forall_forall. intros k Hin. apply filter_In in Hin.
    destruct Hin as [Hin _]. rewrite forallb_forall in Hk.
    now destruct (key_ok_elementary _ _ Hq (Hk _ Hin)) as [_ [_ Hs]]. }
  destruct (filter _ key) as [|k ks]; [apply square_identity|].
  inversion Hf; subst. apply square_fold_matmul; [assumption|].
  now apply Forall_map.
Qed.

Lemma square_term_matrix (subsystems : subsystem_map) (key : key_tuple) :
  subsystems <> [] ->
  all_qubits subsystems = true ->
  forallb (key_ok subsystems) key = true ->
  square (2 ^ List.length subsystems) (term_matrix subsystems key).
Proof.
  intros Hne Hq Hk. unfold term_matrix.
  assert (Hall : Forall (square 2)
                   (map (fun p => factor (fst p) key) subsystems)).
  { apply Forall_map, Forall_forall. intros p _.
    now apply (square_factor subsystems). }
  destruct subsystems as [|p l]; [congruence|].
  cbn [map List.length] in *. inversion Hall; subst.
  replace (2 ^ S (List.length l))%nat with (2 * 2 ^ List.length l)%nat
    by (cbn; lia).
  rewrite <- (length_map (fun p0 => factor (fst p0) key) l).
  now apply square_kron_fold.
Qed.

Lemma term_loop_ok (subsystems : subsystem_map) (td : Z) (d : dict) :
  subsystems <> [] ->
  all_qubits subsystems = true ->
  forallb (term_ok subsystems) d = true ->
  forall m,
    square (2 ^ List.length subsystems) m ->
    let r := fold_left
               (fun acc kv =>
                  madd acc (mscale (snd kv) (term_matrix subsystems (fst kv))))
               d m in
    term_loop (mkBuilder (map fst subsystems)
                         (map (fun _ => identity 2) subsystems)
                         subsystems td) d m = inr r /\
    square (2 ^ List.length subsystems) r.
Proof.
  intros Hne Hq. induction d as [|[key val] d IH]; cbn [forallb];
    intros Hd m Hm; cbn zeta.
  - split; [reflexivity|exact Hm].
  - apply andb_prop in Hd. destruct Hd as [Hk Hd]. unfold term_ok in Hk.
    cbn [fst] in Hk. cbn [term_loop fold_left fst snd].
    destruct (key_loop_ok
                (mkBuilder (map fst subsystems)
                   (map (fun _ => identity 2) subsystems) subsystems td)
                key Hq Hk []) as [s [Es Hs]].
    rewrite Es. cbn [rbind _ids _identity_matrices].
    assert (Ek : kron_loop (map fst subsystems)
                   (map (fun _ => identity 2) subsystems) s None =
                 Some (term_matrix subsystems key)).
    { unfold term_matrix. destruct subsystems as [|p l]; [congruence|].
      cbn [map kron_loop]. rewrite kron_loop_fold.
      assert (Hf : forall id, sub_or_identity s id = factor id key).
      { intros id. unfold sub_or_identity. rewrite Hs, factor_acc.
        reflexivity. }
      fold (sub_or_identity s (fst p)). rewrite Hf.
      f_equal. f_equal. apply map_ext. intros q. apply Hf. }
    rewrite Ek.
    destruct (iadd_square (2 ^ List.length subsystems) m
                (mscale val (term_matrix subsystems key))) as [Ei Hsq].
    + exact Hm.
    + apply square_mscale. now apply square_term_matrix.
    + rewrite Ei. cbn [rbind]. now apply IH.
Qed.

Lemma realize_one_qubits (subsystems : subsystem_map) (d : dict) :
  all_qubits subsystems = true ->
  realize_one subsystems d =
  term_loop (mkBuilder (map fst subsystems)
                       (map (fun _ => identity 2) subsystems)
                       subsystems (total_dim (map snd subsystems)))
            d (zeros (2 ^ List.length subsystems)).
Proof.
  intros Hq. unfold realize_one.
  rewrite identities_of_qubits by assumption. cbn [rbind].
  unfold _build_one_matrix, get_zeros_matrix, get_operator_matrix.
  cbn [_total_dim String.eqb Ascii.eqb Bool.eqb].
  assert (Ht := total_dim_of_qubits subsystems Hq).
  assert (Hpos : (total_dim (map snd subsystems) <? 0) = false).
  { apply Z.ltb_ge. destruct (total_dim (map snd subsystems)); try lia.
    cbn in Ht. assert (2 ^ List.length subsystems <> 0)%nat
      by (apply Nat.pow_nonzero; lia). lia. }
  rewrite Hpos, Ht. reflexivity.
Qed.

Lemma realize_one_ok (subsystems : subsystem_map) (d : dict) :
  subsystems <> [] ->
  all_qubits subsystems = true ->
  forallb (term_ok subsystems) d = true ->
  realize_one subsystems d = inr (realize_dict subsystems d).
Proof.
  intros Hne Hq Hd. rewrite realize_one_qubits by assumption.
  now destruct (term_loop_ok subsystems (total_dim (map snd subsystems)) d
                  Hne Hq Hd _ (square_zeros _)) as [E _].
Qed.

Lemma term_loop_app (self : builder) (pre rest : dict) :
  forall m,
    term_loop self (pre ++ rest) m =
    (r <-? term_loop self pre m ;; term_loop self rest r).
Proof.
  induction pre as [|[key val] pre IH]; intros m; cbn [app term_loop];
    [reflexivity|].
  destruct (key_loop self key []) as [e|s]; cbn [rbind]; [reflexivity|].
  destruct (kron_loop _ _ s None) as [op|]; [|reflexivity].
  destruct (iadd m (mscale val op)) as [e|m']; cbn [rbind]; [reflexivity|].
  apply IH.
Qed.

Lemma realize_one_missing (subsystems : subsystem_map) (pre : dict)
    (kpre : key_tuple) (k : DynamicalOperatorKey) (kpost : key_tuple)
    (val : C) (post : dict) :
  subsystems <> [] ->
  all_qubits subsystems = true ->
  forallb (term_ok subsystems) pre = true ->
  forallb (key_ok subsystems) kpre = true ->
  subsystems_get subsystems (key_system_id k) = None ->
  realize_one subsystems (pre ++ (kpre ++ k :: kpost, val) :: post) =
  inl (MissingSubsystem (key_system_id k)).
Proof.
  intros Hne Hq Hpre Hk Hnone.
  rewrite realize_one_qubits by assumption. rewrite term_loop_app.
  destruct (term_loop_ok subsystems (total_dim (map snd subsystems)) pre
              Hne Hq Hpre _ (square_zeros _)) as [E _].
  rewrite E. cbn [rbind term_loop].
  now rewrite key_loop_missing.
Qed.

Lemma identities_need_qubits (dims : list Z) :
  In 0 dims ->
  exists e, rmap (fun dim => get_operator_matrix "i" dim) dims = inl e.
Proof.
  induction dims as [|d dims IH]; intros Hin; [contradiction|].
  cbn [rmap].
  destruct (get_operator_matrix "i" d) as [e|m] eqn:E;
    [eexists; reflexivity|].
  destruct Hin as [->|Hin]; [discriminate E|].
  destruct (IH Hin) as [e He]. rewrite He. eexists; reflexivity.
Qed.


(** C4: the matrix of a dictionary whose keys are realizable is the sum,
    over its terms, of the coefficient times the Kronecker product, in
    the order of the subsystem map, of one factor per subsystem: the
    identity where the term has no key, else the product of the matrices
    of its keys, in tuple order.  With the map {0: 2, 1: 2},
    [Sx(0)] is realized as [kron(X, I)] and [Sz(1)] as [kron(I, Z)]. *)
Theorem realization_is_kron_assembly :
  (forall (subsystems : subsystem_map) (d : dict) (n : nat),
      subsystems <> [] ->
      all_qubits subsystems = true ->
      forallb (term_ok subsystems) d = true ->
      build_matrices (One (PDict d)) subsystems n =
        inr (RMatrix (realize_dict subsystems d), n) /\
      forall a n0,
        _build_one_dict a n0 = inr (d, n) ->
        build_matrices (One (POp a)) subsystems n0 =
          inr (RMatrix (realize_dict subsystems d), n)) /\
  (forall n,
      build_matrices (One (POp (Sx (IdInt 0))))
                     [(IdInt 0, 2); (IdInt 1, 2)] n =
        inr (RMatrix (get_kron_matrix sigma_x (identity 2)), S n)) /\
  (forall n,
      build_matrices (One (POp (Sz (IdInt 1))))
                     [(IdInt 0, 2); (IdInt 1, 2)] n =
        inr (RMatrix (get_kron_matrix (identity 2) sigma_z), S n)).
Proof.
  split; [|split].
  - intros subsystems d n Hne Hq Hd. split.
    + rewrite build_matrices_one_dict by assumption.
      now rewrite realize_one_ok.
    + intros a n0 Ea. rewrite build_matrices_one_op by assumption.
      rewrite Ea. now rewrite realize_one_ok.
  - intros n. rewrite build_matrices_one_op by discriminate.
    rewrite Sx_fields, build_leaf.
    rewrite realize_one_ok; [|discriminate|reflexivity|reflexivity].
    cbv -[cadd cmul csub copp c0 c1 ci C].
    do 3 f_equal. entrywise; ring.
  - intros n. rewrite build_matrices_one_op by discriminate.
    rewrite Sz_fields, build_leaf.
    rewrite realize_one_ok; [|discriminate|reflexivity|reflexivity].
    cbv -[cadd cmul csub copp c0 c1 ci C].
    do 3 f_equal. entrywise; ring.
Qed.

(** C7: a subsystem of declared dimension 0 is left out of [_total_dim]
    only.  The identity matrix of every declared dimension is still
    requested at line 325, so every call with such a map and at least
    one operator raises; for [Sx(0)] and the map {0: 2, 1: 0} the
    exception is the one for type 'i' at dimension 0, where the claim
    has a 2 x 2 matrix returned. *)
Theorem zero_dimension_is_not_pruned :
  (forall (operators : pyarg) (subsystems : subsystem_map) (n : nat),
      In 0 (map snd subsystems) ->
      operators <> Many [] ->
      exists e, build_matrices operators subsystems n = inl e) /\
  total_dim [2; 0] = 2 /\
  (forall n,
      build_matrices (One (POp (Sx (IdInt 0))))
                     [(IdInt 0, 2); (IdInt 1, 0)] n =
        inl (UnknownOperatorType "i" 0)).
Proof.
  split; [|split; [reflexivity|intros n; reflexivity]].
  intros operators subsystems n Hin Hne.
  destruct (identities_need_qubits _ Hin) as [e0 He0].
  unfold build_matrices.
  destruct (Nat.eqb (List.length subsystems) 0) eqn:El.
  { destruct subsystems; [contradiction|discriminate]. }
  set (ops := match operators with One o => [o] | Many l => l end).
  assert (Hops : Nat.eqb (List.length ops) 0 = false).
  { subst ops. destruct operators as [o|[|o l]]; try reflexivity.
    congruence. }
  rewrite Hops. unfold bind, lift.
  destruct (check_types ops false) as [e|b]; [eexists; reflexivity|].
  destruct b.
  - unfold ret. rewrite He0. eexists; reflexivity.
  - destruct (mapM build_obj ops n) as [e|[ds n1]]; [eexists; reflexivity|].
    unfold ret. rewrite He0. eexists; reflexivity.
Qed.

(** C8, as amended: with a non-empty map of two-level subsystems, when
    the first key that cannot be realized (terms in dictionary order,
    keys from left to right) is one whose subsystem id is absent from
    the map, the call raises the exception of line 340, which carries
    that id. *)
Theorem missing_subsystem_is_reported (subsystems : subsystem_map)
    (pre : dict) (kpre : key_tuple) (k : DynamicalOperatorKey)
    (kpost : key_tuple) (val : C) (post : dict) (n : nat) :
  subsystems <> [] ->
  all_qubits subsystems = true ->
  forallb (term_ok subsystems) pre = true ->
  forallb (key_ok subsystems) kpre = true ->
  subsystems_get subsystems (key_system_id k) = None ->
  build_matrices (One (PDict (pre ++ (kpre ++ k :: kpost, val) :: post)))
                 subsystems n =
    inl (MissingSubsystem (key_system_id k)) /\
  forall a n0,
    _build_one_dict a n0 =
      inr (pre ++ (kpre ++ k :: kpost, val) :: post, n) ->
    build_matrices (One (POp a)) subsystems n0 =
      inl (MissingSubsystem (key_system_id k)).
Proof.
  intros Hne Hq Hpre Hk Hnone. split.
  - rewrite build_matrices_one_dict by assumption.
    now rewrite realize_one_missing.
  - intros a n0 Ea. rewrite build_matrices_one_op by assumption.
    rewrite Ea. now rewrite realize_one_missing.
Qed.

End Realization.

(** ** The compiled rule against the rule it was compiled from *)
Section CompiledRule.
Context {SC : Scalar}.
Variable V : Type.
Variable vzero : V.
Variable vadd : V -> V -> V.
Variable vscale : C -> V -> V.
Hypothesis vadd_zero_r : forall x, vadd x vzero = x.
Hypothesis vadd_zero_l : forall x, vadd vzero x = x.
Hypothesis vscale_one : forall x, vscale c1 x = x.


























End CompiledRule.

(** ** Runs on Gaussian integers *)
Module Runs.
Import Inputs.

(** C2: flattening [(Sx(0) + Sy(0)) * Sz(0)] gives one entry whose key
    is the concatenation of all three keys, with coefficient 1, where
    the claim has the two entries (x, z) and (y, z).  The matrix realized
    from it is [i * I], while the sum [Sx(0) * Sz(0) + Sy(0) * Sz(0)]
    is realized as [[0, -1 + i], [1 + i, 0]]. *)
Theorem flatten_product_of_sum_is_one_entry :
  exists s p xz yz distributed,
    __add__ X0 (VOp Y0) = inr s /\
    __mul__ s (VOp Z0) = inr p /\
    _build_one_dict p 0%nat =
      inr ([([mkKey 0 (IdInt 0) "x"; mkKey 1 (IdInt 0) "y";
              mkKey 2 (IdInt 0) "z"], g 1 0)], 3%nat) /\
    build_matrices (One (POp p)) one_qubit 0%nat =
      inr (RMatrix [[g 0 1; g 0 0]; [g 0 0; g 0 1]], 3%nat) /\
    __mul__ X0 (VOp Z0) = inr xz /\
    __mul__ Y0 (VOp Z0) = inr yz /\
    __add__ xz (VOp yz) = inr distributed /\
    _build_one_dict distributed 0%nat =
      inr ([([mkKey 0 (IdInt 0) "x"; mkKey 1 (IdInt 0) "z"], g 1 0);
            ([mkKey 2 (IdInt 0) "y"; mkKey 3 (IdInt 0) "z"], g 1 0)],
           4%nat) /\
    build_matrices (One (POp distributed)) one_qubit 0%nat =
      inr (RMatrix [[g 0 0; g (-1) 1]; [g 1 1; g 0 0]], 4%nat).
Proof.
  do 5 eexists.
  repeat match goal with
         | |- _ /\ _ => split
         end; try reflexivity; vm_compute; reflexivity.
Qed.

(** C8, the claim as worded: with an empty subsystem map the id 1 of
    the term is absent from the map and the call raises nothing. *)
Lemma missing_subsystem_with_empty_map_is_silent :
  ~ (exists e,
       build_matrices (One (PDict [([mkKey 0 (IdInt 1) "x"], g 1 0)]))
                      [] 0%nat = inl e).
Proof. intros [e H]. discriminate H. Qed.

(** The assembly of C4 on two qubits, for the dictionary of
    [3 * Z_1 X_1 + i * Y_0]. *)
Lemma realization_is_kron_assembly_witness :
  let d : dict :=
    [([mkKey 0 (IdInt 1) "z"; mkKey 1 (IdInt 1) "x"], g 3 0);
     ([mkKey 2 (IdInt 0) "y"], g 0 1)] in
  two_qubits <> [] /\
  all_qubits two_qubits = true /\
  forallb (term_ok two_qubits) d = true /\
  build_matrices (One (PDict d)) two_qubits 0%nat =
    inr (RMatrix (realize_dict two_qubits d), 0%nat).
Proof.
  cbv zeta. split; [discriminate|]. split; [reflexivity|].
  split; [reflexivity|].
  apply (proj1 realization_is_kron_assembly); [discriminate|reflexivity..].
Defined.

(** The failure of C7 on the map {0: 2, 1: 0}. *)
Lemma zero_dimension_is_not_pruned_witness :
  In 0 (map snd [(IdInt 0, 2); (IdInt 1, 0)]) /\
  One (POp X0) <> Many [] /\
  exists e,
    build_matrices (One (POp X0)) [(IdInt 0, 2); (IdInt 1, 0)] 0%nat =
    inl e.
Proof.
  split; [right; left; reflexivity|]. split; [discriminate|].
  apply (proj1 zero_dimension_is_not_pruned);
    [right; left; reflexivity|discriminate].
Defined.

(** The report of C8 for a second term [Z_0 X_7] on the map {0: 2}. *)
Lemma missing_subsystem_is_reported_witness :
  let pre : dict := [([mkKey 0 (IdInt 0) "x"], g 1 0)] in
  let kpre := [mkKey 1 (IdInt 0) "z"] in
  let k := mkKey 2 (IdInt 7) "x" in
  one_qubit <> [] /\
  all_qubits one_qubit = true /\
  forallb (term_ok one_qubit) pre = true /\
  forallb (key_ok one_qubit) kpre = true /\
  subsystems_get one_qubit (key_system_id k) = None /\
  build_matrices (One (PDict (pre ++ (kpre ++ k :: [], g 2 0) :: [])))
                 one_qubit 0%nat =
    inl (MissingSubsystem (IdInt 7)).
Proof.
  cbv zeta. split; [discriminate|]. split; [reflexivity|].
  split; [reflexivity|]. split; [reflexivity|]. split; [reflexivity|].
  apply (missing_subsystem_is_reported one_qubit
           [([mkKey 0 (IdInt 0) "x"], g 1 0)] [mkKey 1 (IdInt 0) "z"]
           (mkKey 2 (IdInt 7) "x") [] (g 2 0) [] 0%nat);
    [discriminate|reflexivity..].
Defined.





End Runs.

(** * Further properties of the operators and of the builder *)

(** ** Flattening of built trees *)
Section BuiltTrees.
Context {SC : Scalar}.
Add Ring scalar_ring_built : c_ring.


Lemma build_product_node (a b : DynamicalOperator) (n : nat) :
  _build_one_dict (set_compound (new_operator a) "@" [VOp a; VOp b]) n =
    match _build_one_dict a n with
    | inl e => inl e
    | inr (da, n1) =>
        match _build_one_dict b n1 with
        | inl e => inl e
        | inr (db, n2) =>
            inr ([product_items (product_items ([], c1) da) db], n2)
        end
    end.
Proof.
  change (_build_one_dict
            (set_compound (new_operator a) "@" [VOp a; VOp b]) n)
    with (bind (_build_one_dict a)
            (fun da => bind (_build_one_dict b)
               (fun db =>
                  ret [product_items (product_items ([], c1) da) db])) n).
  unfold bind, ret.
  destruct (_build_one_dict a n) as [e|[da n1]]; [reflexivity|].
  destruct (_build_one_dict b n1) as [e|[db n2]]; reflexivity.
Qed.

Lemma product_items_fold (d : dict) :
  forall acc,
    product_items acc d =
    (fst acc ++ List.concat (map fst d), fold_left cmul (map snd d) (snd acc)).
Proof.
  unfold product_items.
  induction d as [|[k v] d IH]; intros [ak av]; cbn.
  - now rewrite app_nil_r.
  - rewrite IH. cbn. now rewrite app_assoc.
Qed.















(** X3: the dictionary of a product has exactly one entry: its key is
    the concatenation of all the keys of the left operand's dictionary
    followed by all those of the right one, its coefficient the product
    of all their coefficients.  When both dictionaries have one entry,
    the entry is (k1 ++ k2, v1 * v2). *)
Theorem product_flattens_to_one_entry (a b : DynamicalOperator)
    (n n1 n2 : nat) (da db : dict) :
  _build_one_dict a n = inr (da, n1) ->
  _build_one_dict b n1 = inr (db, n2) ->
  exists p,
    __mul__ a (VOp b) = inr p /\
    _build_one_dict p n =
      inr ([(List.concat (map fst da) ++ List.concat (map fst db),
             fold_left cmul (map snd da ++ map snd db) c1)], n2) /\
    forall k1 v1 k2 v2,
      da = [(k1, v1)] -> db = [(k2, v2)] ->
      _build_one_dict p n = inr ([(k1 ++ k2, cmul v1 v2)], n2).
Proof.
  intros Ea Eb.
  exists (set_compound (new_operator a) "@" [VOp a; VOp b]).
  split; [reflexivity|].
  rewrite build_product_node, Ea, Eb, !product_items_fold.
  cbn [fst snd app]. rewrite fold_left_app. split; [reflexivity|].
  intros k1 v1 k2 v2 -> ->. cbn. rewrite !app_nil_r.
  now replace (cmul (cmul c1 v1) v2) with (cmul v1 v2) by ring.
Qed.

Lemma scale_dict_twice (c e : C) (d : dict) :
  scale_dict c (scale_dict e d) = scale_dict (cmul e c) d.
Proof.
  unfold scale_dict. rewrite map_map. apply map_ext.
  intros [k v]. cbn. f_equal. ring.
Qed.

Lemma scale_dict_one (d : dict) : scale_dict c1 d = d.
Proof.
  unfold scale_dict. rewrite <- (map_id d) at 2. apply map_ext.
  intros [k v]. cbn. f_equal. ring.
Qed.

(** X4: negating twice gives a tree that flattens to the very dictionary
    of the original tree (same keys, same coefficients, same outcome when
    flattening raises). *)
Theorem double_negation_flattens_alike (a : DynamicalOperator) (n : nat) :
  exists na nna,
    __neg__ a = inr na /\
    __neg__ na = inr nna /\
    _build_one_dict nna n = _build_one_dict a n.
Proof.
  eexists _, _. split; [reflexivity|]. split; [reflexivity|].
  rewrite build_scalar_product, build_scalar_product.
  destruct (_build_one_dict a n) as [e|[d n']]; [reflexivity|].
  rewrite scale_dict_twice.
  replace (cmul (copp c1) (copp c1)) with c1 by ring.
  now rewrite scale_dict_one.
Qed.

End BuiltTrees.

(** ** Realization is linear *)
Section Linearity.
Context {SC : Scalar}.
Add Ring scalar_ring_lin : c_ring.







Lemma row_add_zeros (r : list C) :
  zip_with cadd (repeat c0 (List.length r)) r = r.
Proof.
  induction r as [|x r IH]; cbn; [reflexivity|].
  rewrite IH. f_equal. ring.
Qed.

Lemma madd_zeros_l (n : nat) (m : Matrix) :
  square n m -> madd (zeros n) m = m.
Proof.
  unfold square, zeros, madd. intros [L R].
  assert (H : forall q (m : Matrix),
             Forall (fun row => List.length row = q) m ->
             zip_with (zip_with cadd)
                      (repeat (repeat c0 q) (List.length m)) m = m).
  { clear. intros q m R. induction m as [|r m IH]; cbn; [reflexivity|].
    inversion R as [|? ? Hr Hm]; subst. rewrite (IH Hm). f_equal.
    apply row_add_zeros. }
  rewrite <- L at 2. now apply H.
Qed.

Lemma mscale_one (m : Matrix) : mscale c1 m = m.
Proof.
  unfold mscale. rewrite <- (map_id m) at 2. apply map_ext. intros r.
  rewrite <- (map_id r) at 2. apply map_ext. intros x. ring.
Qed.


















End Linearity.

(** ** The built-in primitives *)
Section Primitives.
Context {SC : Scalar}.
Add Ring scalar_ring_prim : c_ring.

Lemma get_operator_matrix_cases_aux (s : string) (dim : Z) :
  match get_operator_matrix s dim with
  | inr m =>
      square (Z.to_nat dim) m /\
      (s = "null" /\ 0 <= dim /\ m = zeros (Z.to_nat dim) \/
       dim = 2 /\ In s two_level_types)
  | inl e =>
      s = "null" /\ dim < 0 /\ exn_class e = ClsValueError \/
      s <> "null" /\ (dim <> 2 \/ ~ In s two_level_types) /\
      e = UnknownOperatorType s dim
  end.
Proof.
  destruct (get_operator_matrix s dim) as [e|m] eqn:E.
  - unfold get_operator_matrix in E.
    destruct (String.eqb_spec s "null") as [->|Hn].
    + destruct (Z.ltb_spec dim 0); [|discriminate].
      inversion E. left. repeat split. assumption.
    + right. split; [exact Hn|].
      destruct (Z.eqb_spec dim 2) as [->|Hd]; cbn [andb] in E.
      * repeat match type of E with
               | context [String.eqb s ?t] =>
                   destruct (String.eqb_spec s t); [discriminate|]
               end.
        inversion E. split; [|reflexivity]. right.
        unfold two_level_types. cbn [In]. intuition congruence.
      * inversion E. split; [now left|reflexivity].
  - split; [now apply get_operator_matrix_square in E|].
    unfold get_operator_matrix in E.
    destruct (String.eqb_spec s "null") as [->|Hn].
    + destruct (Z.ltb_spec dim 0); [discriminate|].
      inversion E. left. repeat split. assumption.
    + right.
      destruct (Z.eqb_spec dim 2) as [->|Hd]; cbn [andb] in E;
        [|discriminate].
      split; [reflexivity|].
      unfold two_level_types. cbn [In].
      repeat match type of E with
             | context [String.eqb s ?t] =>
                 destruct (String.eqb_spec s t); [intuition congruence|]
             end.
      discriminate.
Qed.


(** X8: the built-in two-level matrices are the Pauli matrices and the
    ladder operators: X, Y and Z square to the identity, X Y = i Z,
    sp sm and sm sp are the projectors '0' and '1', and sp + sm = X. *)
Theorem two_level_matrices_algebra :
  matmul sigma_x sigma_x = identity 2 /\
  matmul sigma_y sigma_y = identity 2 /\
  matmul sigma_z sigma_z = identity 2 /\
  matmul sigma_x sigma_y = mscale ci sigma_z /\
  matmul sigma_p sigma_m = proj_0 /\
  matmul sigma_m sigma_p = proj_1 /\
  madd sigma_p sigma_m = sigma_x.
Proof.
  repeat split;
    cbv -[cadd cmul csub copp c0 c1 ci C];
    repeat match goal with
           | |- (_ :: _) = (_ :: _) => apply f_equal2
           | |- [] = [] => reflexivity
           end;
    try ring.
  all: transitivity (copp (cmul ci ci)); [ring|rewrite ci_square; ring].
Qed.

End Primitives.

(** ** What [build_matrices] returns and raises *)
Section BuilderEdges.
Context {SC : Scalar}.
Add Ring scalar_ring_edges : c_ring.

(** *** Shapes of what is returned *)

Lemma same_shape_rows (q : nat) (m : Matrix) :
  forall x,
    same_shape m x = true ->
    List.length x = List.length m /\
    (Forall (fun row => List.length row = q) m ->
     Forall (fun row => List.length row = q) x).
Proof.
  induction m as [|r m IH]; intros [|rx x]; cbn; try discriminate.
  - intros _. split; [reflexivity|auto].
  - intros E. apply andb_prop in E. destruct E as [Er E].
    apply Nat.eqb_eq in Er. destruct (IH x E) as [L F].
    split; [congruence|]. intros R. inversion R; subst.
    constructor; [congruence|auto].
Qed.

Lemma same_shape_square (n : nat) (m x : Matrix) :
  same_shape m x = true -> square n m -> square n x.
Proof.
  unfold square. intros E [L R].
  destruct (same_shape_rows n m x E) as [Lx Fx].
  split; [congruence|auto].
Qed.

Lemma iadd_shape (n : nat) (m x r : Matrix) :
  iadd m x = inr r -> square n m -> square n r.
Proof.
  unfold iadd. destruct (same_shape m x) eqn:E; [|discriminate].
  intros H Hm. inversion H; subst.
  now destruct (iadd_square n m x Hm (same_shape_square n m x E Hm)).
Qed.

Lemma term_loop_shape (self : builder) (n : nat) (d : dict) :
  forall m r, term_loop self d m = inr r -> square n m -> square n r.
Proof.
  induction d as [|[key val] d IH]; intros m r; cbn [term_loop].
  - intros E. now inversion E.
  - destruct (key_loop self key []) as [e|s]; cbn [rbind]; [discriminate|].
    destruct (kron_loop _ _ s None) as [op|]; [|discriminate].
    destruct (iadd m (mscale val op)) as [e|m'] eqn:Ei; cbn [rbind];
      [discriminate|].
    intros E Hm. eapply IH; [exact E|]. eapply iadd_shape; eassumption.
Qed.

Lemma _build_one_matrix_shape (self : builder) (o : pyobj) (m : Matrix) :
  _build_one_matrix self o = inr m ->
  square (Z.to_nat (_total_dim self)) m.
Proof.
  unfold _build_one_matrix.
  destruct (get_zeros_matrix (_total_dim self)) as [e|z] eqn:Ez;
    cbn [rbind]; [discriminate|].
  apply get_zeros_matrix_inr in Ez. subst z.
  destruct o as [d|a|t]; try discriminate.
  intros E. eapply term_loop_shape; [exact E|apply square_zeros].
Qed.

Lemma rmap_Forall {A B} (f : A -> res B) (P : B -> Prop) (l : list A) :
  (forall x y, f x = inr y -> P y) ->
  forall rs, rmap f l = inr rs -> Forall P rs.
Proof.
  intros Hf. induction l as [|a l IH]; cbn [rmap]; intros rs E.
  - inversion E. constructor.
  - destruct (f a) as [e|b] eqn:Ea; cbn [rbind] in E; [discriminate|].
    destruct (rmap f l) as [e|bs]; cbn [rbind] in E; [discriminate|].
    inversion E; subst. constructor; [eapply Hf; eassumption|].
    now apply IH.
Qed.

Lemma total_dim_fold_pos (dims : list Z) :
  forall t, 1 <= t ->
    1 <= fold_left (fun t dim => if dim >? 0 then t * dim else t) dims t.
Proof.
  induction dims as [|d dims IH]; intros t Ht; cbn [fold_left];
    [exact Ht|].
  apply IH. destruct (Z.gtb_spec d 0); [nia|exact Ht].
Qed.

Lemma total_dim_pos (dims : list Z) : 1 <= total_dim dims.
Proof. apply total_dim_fold_pos. lia. Qed.

(** X9: [None] is returned for the empty map only, and every matrix that
    is returned, alone or in a list, is a square array whose side is the
    product of the positive declared dimensions. *)
Theorem returned_matrices_are_square (operators : pyarg)
    (subsystems : subsystem_map) (n n' : nat) (r : pyresult) :
  build_matrices operators subsystems n = inr (r, n') ->
  1 <= total_dim (map snd subsystems) /\
  match r with
  | RNone => subsystems = []
  | RMatrix m =>
      square (Z.to_nat (total_dim (map snd subsystems))) m
  | RList l =>
      Forall (square (Z.to_nat (total_dim (map snd subsystems)))) l
  end.
Proof.
  intros E. split; [apply total_dim_pos|].
  unfold build_matrices in E.
  destruct (Nat.eqb (List.length subsystems) 0) eqn:El.
  { unfold ret in E. inversion E; subst.
    destruct subsystems; [reflexivity|discriminate]. }
  set (ops := match operators with One o => [o] | Many l => l end) in E.
  destruct (Nat.eqb (List.length ops) 0).
  { unfold bind, lift, ret in E.
    destruct (get_zeros_matrix (total_dim (map snd subsystems)))
      as [e|z] eqn:Ez; [discriminate|].
    inversion E; subst. apply get_zeros_matrix_inr in Ez. subst z.
    apply square_zeros. }
  unfold bind, lift in E.
  destruct (check_types ops false) as [e|b]; [discriminate|].
  destruct ((if b then ret ops
             else fun n0 =>
                    match mapM build_obj ops n0 with
                    | inl e => inl e
                    | inr (a, n'0) => ret (map PDict a) n'0
                    end) n) as [e|[od n1]]; [discriminate|].
  destruct (rmap (fun dim => get_operator_matrix "i" dim)
                 (map snd subsystems)) as [e|ids]; [discriminate|].
  destruct (rmap _ od) as [e|results] eqn:Er; [discriminate|].
  apply (rmap_Forall _
           (square (Z.to_nat (total_dim (map snd subsystems))))) in Er.
  2:{ intros x y Hxy. apply _build_one_matrix_shape in Hxy. exact Hxy. }
  destruct operators as [o|l].
  - destruct results as [|m rs]; [discriminate|].
    unfold ret in E. inversion E; subst. now inversion Er.
  - unfold ret in E. inversion E; subst. exact Er.
Qed.



(** *** Products of two leaves *)

Lemma key_ok_oid (subsystems : subsystem_map) (n m : nat) (id : pyid)
    (u : string) :
  key_ok subsystems (mkKey n id u) = key_ok subsystems (mkKey m id u).
Proof. reflexivity. Qed.

Lemma key_ok_nonempty (subsystems : subsystem_map)
    (k : DynamicalOperatorKey) :
  key_ok subsystems k = true -> subsystems <> [].
Proof. intros H ->. discriminate H. Qed.

Lemma realize_single_term (subsystems : subsystem_map) (key : key_tuple) :
  subsystems <> [] ->
  all_qubits subsystems = true ->
  forallb (key_ok subsystems) key = true ->
  realize_one subsystems [(key, cmul (cmul c1 c1) c1)] =
  inr (term_matrix subsystems key).
Proof.
  intros Hne Hq Hk.
  rewrite realize_one_ok; try assumption.
  - f_equal. unfold realize_dict. cbn [fold_left fst snd].
    replace (cmul (cmul c1 c1) c1) with c1 by ring.
    rewrite mscale_one. apply madd_zeros_l.
    now apply square_term_matrix.
  - cbn [forallb]. unfold term_ok. cbn [fst]. now rewrite Hk.
Qed.

Lemma term_matrix_kron_all (subsystems : subsystem_map) (key : key_tuple) :
  term_matrix subsystems key =
  kron_all (map (fun p => factor (fst p) key) subsystems).
Proof. reflexivity. Qed.

Lemma build_product_of_leaves (i j : pyid) (sa sb : string)
    (ala alb : option alias_table) (n : nat) :
  let a := __init__ i sa ala in
  let b := __init__ j sb alb in
  _build_one_dict (set_compound (new_operator a) "@" [VOp a; VOp b]) n =
    inr ([([mkKey n i (s_type_unique a); mkKey (S n) j (s_type_unique b)],
           cmul (cmul c1 c1) c1)], S (S n)).
Proof. cbv zeta. now rewrite build_product_node. Qed.

(** X11: two leaves that act on different subsystems commute: when both
    are realizable, [a * b] and [b * a] are realized as the same
    matrix. *)
Theorem leaves_on_different_subsystems_commute
    (subsystems : subsystem_map) (i j : pyid) (sa sb : string)
    (ala alb : option alias_table) (n : nat) :
  let a := __init__ i sa ala in
  let b := __init__ j sb alb in
  i <> j ->
  all_qubits subsystems = true ->
  key_ok subsystems (mkKey n i (s_type_unique a)) = true ->
  key_ok subsystems (mkKey n j (s_type_unique b)) = true ->
  exists ab ba m,
    __mul__ a (VOp b) = inr ab /\
    __mul__ b (VOp a) = inr ba /\
    build_matrices (One (POp ab)) subsystems n =
      inr (RMatrix m, S (S n)) /\
    build_matrices (One (POp ba)) subsystems n =
      inr (RMatrix m, S (S n)).
Proof.
  cbv zeta. intros Hij Hq Ha Hb.
  assert (Hne := key_ok_nonempty _ _ Ha).
  eexists _, _, _. split; [reflexivity|]. split; [reflexivity|].
  rewrite !build_matrices_one_op by assumption.
  rewrite (build_product_of_leaves i j sa sb ala alb n).
  rewrite (build_product_of_leaves j i sb sa alb ala n).
  rewrite !realize_single_term; try assumption.
  - split; [reflexivity|]. do 3 f_equal.
    rewrite !term_matrix_kron_all. f_equal.
    apply map_ext. intros [id dim].
    unfold factor. cbn [filter key_system_id fst].
    destruct (pyid_eqb_spec i id) as [Ei|Ei];
      destruct (pyid_eqb_spec j id) as [Ej|Ej]; try reflexivity.
    congruence.
  - cbn [forallb]. rewrite (key_ok_oid _ (S n) n). now rewrite Hb, Ha.
  - cbn [forallb]. rewrite (key_ok_oid _ (S n) n). now rewrite Ha, Hb.
Qed.

(** X12: the product of two leaves that act on one subsystem is realized
    as the Kronecker product, in the order of the map, of the matrix
    product of their two matrices (left operand first) at that
    subsystem and of the identity at every other one. *)
Theorem leaves_on_one_subsystem_multiply
    (subsystems : subsystem_map) (i : pyid) (sa sb : string)
    (ala alb : option alias_table) (n : nat) :
  let a := __init__ i sa ala in
  let b := __init__ i sb alb in
  all_qubits subsystems = true ->
  key_ok subsystems (mkKey n i (s_type_unique a)) = true ->
  key_ok subsystems (mkKey n i (s_type_unique b)) = true ->
  exists ab,
    __mul__ a (VOp b) = inr ab /\
    build_matrices (One (POp ab)) subsystems n =
      inr (RMatrix
             (kron_all
                (map (fun p =>
                        if pyid_eqb i (fst p)
                        then matmul (elementary (s_type_unique a))
                                    (elementary (s_type_unique b))
                        else identity 2)
                     subsystems)),
           S (S n)).
Proof.
  cbv zeta. intros Hq Ha Hb.
  assert (Hne := key_ok_nonempty _ _ Ha).
  eexists. split; [reflexivity|].
  rewrite build_matrices_one_op by assumption.
  rewrite (build_product_of_leaves i i sa sb ala alb n).
  rewrite realize_single_term; try assumption.
  - do 3 f_equal. rewrite term_matrix_kron_all. f_equal.
    apply map_ext. intros [id dim].
    unfold factor. cbn [filter key_system_id fst].
    destruct (pyid_eqb i id); reflexivity.
  - cbn [forallb]. rewrite (key_ok_oid _ (S n) n). now rewrite Ha, Hb.
Qed.

(** *** Error precedence *)

Lemma key_loop_unsupported (self : builder) (kpre : key_tuple)
    (k : DynamicalOperatorKey) (kpost : key_tuple) (e : exn) :
  all_qubits (_subsystems self) = true ->
  forallb (key_ok (_subsystems self)) kpre = true ->
  subsystems_get (_subsystems self) (key_system_id k) <> None ->
  get_operator_matrix (key_s_type_unique k) 2 = inl e ->
  forall s0, key_loop self (kpre ++ k :: kpost) s0 = inl e.
Proof.
  intros Hq. induction kpre as [|k0 kpre IH]; cbn [forallb app];
    intros Hk Hin He s0.
  - cbn [key_loop].
    destruct (subsystems_get (_subsystems self) (key_system_id k))
      as [dim|] eqn:Eg; [|congruence].
    apply (subsystems_get_qubit _ _ _ Hq) in Eg. subst dim.
    now rewrite He.
  - apply andb_prop in Hk. destruct Hk as [Hk Hrest].
    destruct (key_ok_elementary _ _ Hq Hk) as [Eg [Em _]].
    cbn [key_loop]. rewrite Eg, Em. cbn [rbind]. now apply IH.
Qed.

(** X13: when the first key that cannot be realized is on a subsystem of
    the map and has a type other than 'null' and the eight two-level
    types, the call raises the exception that carries that type and the
    dimension 2. *)
Theorem unsupported_type_is_reported (subsystems : subsystem_map)
    (pre : dict) (kpre : key_tuple) (k : DynamicalOperatorKey)
    (kpost : key_tuple) (val : C) (post : dict) (n : nat) :
  all_qubits subsystems = true ->
  forallb (term_ok subsystems) pre = true ->
  forallb (key_ok subsystems) kpre = true ->
  subsystems_get subsystems (key_system_id k) <> None ->
  key_s_type_unique k <> "null" ->
  ~ In (key_s_type_unique k) two_level_types ->
  build_matrices (One (PDict (pre ++ (kpre ++ k :: kpost, val) :: post)))
                 subsystems n =
    inl (UnknownOperatorType (key_s_type_unique k) 2).
Proof.
  intros Hq Hpre Hk Hin Hnull Htwo.
  assert (Hne : subsystems <> []) by (intros ->; now apply Hin).
  assert (He : get_operator_matrix (key_s_type_unique k) 2 =
               inl (UnknownOperatorType (key_s_type_unique k) 2)).
  { assert (H := get_operator_matrix_cases_aux (key_s_type_unique k) 2).
    destruct (get_operator_matrix (key_s_type_unique k) 2) as [e|m].
    - destruct H as [[H _]|[_ [_ H]]]; [congruence|now subst].
    - destruct H as [_ [[H _]|[_ H]]]; [congruence|contradiction]. }
  rewrite build_matrices_one_dict by assumption.
  rewrite realize_one_qubits by assumption. rewrite term_loop_app.
  destruct (term_loop_ok subsystems (total_dim (map snd subsystems)) pre
              Hne Hq Hpre _ (square_zeros _)) as [E _].
  rewrite E. cbn [rbind term_loop].
  erewrite key_loop_unsupported;
    [reflexivity|exact Hq|exact Hk|exact Hin|exact He].
Qed.

(** *** Maps with a dimension other than 2 *)

Lemma identities_need_dimension_2 (dims : list Z) (d : Z) :
  In d dims -> d <> 2 ->
  exists e, rmap (fun dim => get_operator_matrix "i" dim) dims = inl e.
Proof.
  intros Hin Hd. induction dims as [|x dims IH]; [contradiction|].
  cbn [rmap].
  destruct (get_operator_matrix "i" x) as [e|m] eqn:E;
    [eexists; reflexivity|].
  destruct Hin as [->|Hin].
  - exfalso. unfold get_operator_matrix in E. cbn [String.eqb Ascii.eqb
      Bool.eqb] in E.
    destruct (Z.eqb_spec d 2); [contradiction|discriminate E].
  - destruct (IH Hin) as [e He]. rewrite He. eexists; reflexivity.
Qed.

(** X14: a map that declares a dimension other than 2 is never realized by
    the built-in primitives: every call with at least one operator
    raises. *)
Theorem only_qubit_maps_are_realized (operators : pyarg)
    (subsystems : subsystem_map) (d : Z) (n : nat) :
  In d (map snd subsystems) -> d <> 2 ->
  operators <> Many [] ->
  exists e, build_matrices operators subsystems n = inl e.
Proof.
  intros Hin Hd Hne.
  destruct (identities_need_dimension_2 _ _ Hin Hd) as [e0 He0].
  unfold build_matrices.
  destruct (Nat.eqb (List.length subsystems) 0) eqn:El.
  { destruct subsystems; [contradiction|discriminate]. }
  set (ops := match operators with One o => [o] | Many l => l end).
  assert (Hops : Nat.eqb (List.length ops) 0 = false).
  { subst ops. destruct operators as [o|[|o l]]; try reflexivity.
    congruence. }
  rewrite Hops. unfold bind, lift.
  destruct (check_types ops false) as [e|b]; [eexists; reflexivity|].
  destruct b.
  - unfold ret. rewrite He0. eexists; reflexivity.
  - destruct (mapM build_obj ops n) as [e|[ds n1]]; [eexists; reflexivity|].
    unfold ret. rewrite He0. eexists; reflexivity.
Qed.

End BuilderEdges.

(** ** The type check of [build_matrices] *)
Section TypeCheck.
Context {SC : Scalar}.

Lemma check_types_after_dict (ops : list pyobj) (b : bool) :
  check_types ops true = inr b ->
  b = true /\ exists ds, ops = map PDict ds.
Proof.
  induction ops as [|o ops IH]; cbn [check_types]; intros E.
  - inversion E. split; [reflexivity|]. now exists [].
  - destruct o as [d|a|t]; try discriminate.
    destruct (IH E) as [Hb [ds Hds]]. split; [exact Hb|].
    exists (d :: ds). cbn. now rewrite Hds.
Qed.

Lemma check_types_dicts (ds : list dict) :
  check_types (map PDict ds) true = inr true.
Proof. induction ds as [|d ds IH]; cbn; [reflexivity|exact IH]. Qed.

Lemma check_types_errors (ops : list pyobj) :
  forall b e,
    check_types ops b = inl e ->
    e = MixedOperatorTypes \/
    exists t, e = UnsupportedClass t /\ In (POther t) ops.
Proof.
  induction ops as [|o ops IH]; cbn [check_types]; intros b e E;
    [discriminate|].
  destruct o as [d|a|t].
  - destruct (IH _ _ E) as [H|[t [H1 H2]]]; [now left|].
    right. exists t. split; [exact H1|now right].
  - destruct b; [inversion E; now left|].
    destruct (IH _ _ E) as [H|[t [H1 H2]]]; [now left|].
    right. exists t. split; [exact H1|now right].
  - inversion E. right. exists t. split; [reflexivity|now left].
Qed.

(** X15: the type check of [build_matrices] accepts exactly the lists made
    of nodes followed by dictionaries (either part may be empty), and
    reports whether a dictionary was seen; every other list raises the
    same-type exception or the unsupported-class exception for one of
    its elements. *)
Theorem type_check_accepts_nodes_then_dictionaries (ops : list pyobj) :
  (forall b,
      check_types ops false = inr b <->
      exists nodes ds,
        ops = map POp nodes ++ map PDict ds /\
        b = match ds with [] => false | _ :: _ => true end) /\
  (forall e,
      check_types ops false = inl e ->
      e = MixedOperatorTypes \/
      exists t, e = UnsupportedClass t /\ In (POther t) ops).
Proof.
  split; [|intros e; apply check_types_errors].
  intros b. split.
  - revert b. induction ops as [|o ops IH]; cbn [check_types]; intros b E.
    + inversion E. now exists [], [].
    + destruct o as [d|a|t]; try discriminate.
      * destruct (check_types_after_dict _ _ E) as [-> [ds ->]].
        now exists [], (d :: ds).
      * destruct (IH _ E) as [nodes [ds [-> ->]]].
        now exists (a :: nodes), ds.
  - intros [nodes [ds [-> ->]]].
    induction nodes as [|a nodes IH]; cbn [map app check_types].
    + destruct ds as [|d ds]; cbn [map check_types]; [reflexivity|].
      apply check_types_dicts.
    + exact IH.
Qed.

End TypeCheck.

(** ** Unique types, copies and batches *)
Section Copies.
Context {SC : Scalar}.

Lemma lower_ascii_idempotent (a : ascii) :
  lower_ascii (lower_ascii a) = lower_ascii a.
Proof.
  destruct a as [[] [] [] [] [] [] [] []]; reflexivity.
Qed.

Lemma lower_idempotent (s : string) : lower (lower s) = lower s.
Proof.
  induction s as [|a s IH]; cbn; [reflexivity|].
  now rewrite lower_ascii_idempotent, IH.
Qed.

(** X16: the unique type of a node depends on the declared type up to
    letter case only, and with the default aliases declaring the unique
    type again gives the same unique type. *)
Theorem unique_type_ignores_case (id : pyid) (s : string)
    (al : option alias_table) :
  s_type_unique (__init__ id s al) = s_type_unique (__init__ id (lower s) al) /\
  s_type_unique (__init__ id (s_type_unique (__init__ id s None)) None) =
    s_type_unique (__init__ id s None).
Proof.
  split.
  - unfold __init__. cbn [s_type_unique]. now rewrite lower_idempotent.
  - unfold __init__. cbn [s_type_unique]. unfold DEFAULT_ALIASES.
    cbn [alias_get].
    destruct (String.eqb "id" (lower s)) eqn:E1; [reflexivity|].
    destruct (String.eqb "sx" (lower s)) eqn:E2; [reflexivity|].
    destruct (String.eqb "sy" (lower s)) eqn:E3; [reflexivity|].
    destruct (String.eqb "sz" (lower s)) eqn:E4; [reflexivity|].
    now rewrite lower_idempotent, E1, E2, E3, E4.
Qed.

(** X17: the deep copy of a tree built with the constructor and the
    operators is an equal tree: same ids, declared and unique types,
    alias tables, compound types and operands, at every depth. *)
Theorem deepcopy_of_built_tree (a : DynamicalOperator) :
  built a -> __deepcopy__ a = a.
Proof.
  induction 1 as [id st al|a b r Ha IHa Hb IHb E|a b r Ha IHa Hb IHb E
                 |a c r Ha IHa E].
  - destruct al; reflexivity.
  - cbn in E. inversion E; subst r. cbn. now rewrite IHa, IHb.
  - cbn in E. inversion E; subst r. cbn. now rewrite IHa, IHb.
  - cbn in E. inversion E; subst r. cbn. now rewrite IHa.
Qed.


End Copies.

(** ** Realizable trees and batches of dictionaries *)
Section Totality.
Context {SC : Scalar}.




Lemma realize_one_of_call (subsystems : subsystem_map) (d : dict)
    (m : Matrix) (n : nat) :
  subsystems <> [] ->
  build_matrices (One (PDict d)) subsystems n = inr (RMatrix m, n) ->
  realize_one subsystems d = inr m.
Proof.
  intros Hne. rewrite build_matrices_one_dict by assumption.
  destruct (realize_one subsystems d) as [e|m']; [discriminate|].
  intros E. now inversion E.
Qed.

(** X20: a non-empty list of dictionaries is realized element by element:
    when each dictionary alone is realized as a matrix, the call on the
    list returns the list of those matrices, in order. *)
Theorem list_of_dictionaries_realizes_elementwise
    (subsystems : subsystem_map) (ds : list dict) (ms : list Matrix)
    (n : nat) :
  subsystems <> [] -> ds <> [] ->
  Forall2 (fun d m =>
             build_matrices (One (PDict d)) subsystems n =
             inr (RMatrix m, n)) ds ms ->
  build_matrices (Many (map PDict ds)) subsystems n = inr (RList ms, n).
Proof.
  intros Hne Hds Hall.
  assert (Hone : Forall2 (fun d m => realize_one subsystems d = inr m) ds ms).
  { eapply Forall2_impl; [|exact Hall]. cbn. intros d m H.
    now apply (realize_one_of_call subsystems d m n). }
  clear Hall. unfold build_matrices.
  destruct (Nat.eqb (List.length subsystems) 0) eqn:El.
  { destruct subsystems; [congruence|discriminate]. }
  destruct ds as [|d0 ds]; [congruence|].
  cbn [map List.length Nat.eqb check_types].
  rewrite check_types_dicts. unfold bind, lift, ret.
  unfold realize_one in Hone.
  destruct (rmap (fun dim => get_operator_matrix "i" dim)
                 (map snd subsystems)) as [e|ids].
  { inversion Hone; subst. discriminate. }
  cbn [rbind] in Hone.
  assert (E : rmap (_build_one_matrix
                      (mkBuilder (map fst subsystems) ids subsystems
                         (total_dim (map snd subsystems))))
                   (map PDict (d0 :: ds)) = inr ms).
  { clear Hds. induction Hone as [|d m ds' ms' Hd _ IH]; [reflexivity|].
    cbn [map rmap]. rewrite Hd. cbn [rbind]. rewrite IH. reflexivity. }
  cbn [map] in E. rewrite E. reflexivity.
Qed.

End Totality.

(** ** Further runs on Gaussian integers *)
Module MoreRuns.
Import Inputs MoreInputs.

Lemma built_X0 : built X0.
Proof. exact (built_leaf (IdInt 0) "x" None). Qed.

Lemma built_Y0 : built Y0.
Proof. exact (built_leaf (IdInt 0) "y" None). Qed.

Lemma built_X0_plus_Y0 : built X0_plus_Y0.
Proof. exact (built_add X0 Y0 _ built_X0 built_Y0 eq_refl). Qed.



Lemma product_flattens_to_one_entry_witness :
  let da : dict := [([kx 0], g 1 0); ([ky 1], g 1 0)] in
  let db : dict := [([kz0 2], g 1 0)] in
  _build_one_dict X0_plus_Y0 0%nat = inr (da, 2%nat) /\
  _build_one_dict Z0 2%nat = inr (db, 3%nat) /\
  exists p,
    __mul__ X0_plus_Y0 (VOp Z0) = inr p /\
    _build_one_dict p 0%nat =
      inr ([(List.concat (map fst da) ++ List.concat (map fst db),
             fold_left cmul (map snd da ++ map snd db) c1)], 3%nat) /\
    forall k1 v1 k2 v2,
      da = [(k1, v1)] -> db = [(k2, v2)] ->
      _build_one_dict p 0%nat = inr ([(k1 ++ k2, cmul v1 v2)], 3%nat).
Proof.
  cbv zeta. split; [reflexivity|]. split; [reflexivity|].
  exact (product_flattens_to_one_entry X0_plus_Y0 Z0 0 2 3 _ _
           eq_refl eq_refl).
Defined.



Lemma returned_matrices_are_square_witness :
  let m : Matrix :=
    [[g 0 0; g 0 0; g 1 0; g 0 0]; [g 0 0; g 0 0; g 0 0; g 1 0];
     [g 1 0; g 0 0; g 0 0; g 0 0]; [g 0 0; g 1 0; g 0 0; g 0 0]] in
  build_matrices (One (POp X0)) two_qubits 0%nat = inr (RMatrix m, 1%nat) /\
  1 <= total_dim (map snd two_qubits) /\
  square (Z.to_nat (total_dim (map snd two_qubits))) m.
Proof.
  cbv zeta. split; [reflexivity|].
  exact (returned_matrices_are_square (One (POp X0)) two_qubits 0 1
           (RMatrix _) eq_refl).
Defined.


Lemma leaves_on_different_subsystems_commute_witness :
  IdInt 0 <> IdInt 1 /\
  all_qubits two_qubits = true /\
  key_ok two_qubits (mkKey 0 (IdInt 0) (s_type_unique X0)) = true /\
  key_ok two_qubits (mkKey 0 (IdInt 1) (s_type_unique Z1)) = true /\
  exists ab ba m,
    __mul__ X0 (VOp Z1) = inr ab /\
    __mul__ Z1 (VOp X0) = inr ba /\
    build_matrices (One (POp ab)) two_qubits 0%nat =
      inr (RMatrix m, 2%nat) /\
    build_matrices (One (POp ba)) two_qubits 0%nat =
      inr (RMatrix m, 2%nat).
Proof.
  split; [discriminate|]. split; [reflexivity|]. split; [reflexivity|].
  split; [reflexivity|].
  apply (@leaves_on_different_subsystems_commute GaussZ two_qubits
           (IdInt 0) (IdInt 1) "x" "z" None None 0);
    [discriminate|reflexivity..].
Defined.

Lemma leaves_on_one_subsystem_multiply_witness :
  all_qubits two_qubits = true /\
  key_ok two_qubits (mkKey 0 (IdInt 0) (s_type_unique X0)) = true /\
  key_ok two_qubits (mkKey 0 (IdInt 0) (s_type_unique Z0)) = true /\
  exists ab,
    __mul__ X0 (VOp Z0) = inr ab /\
    build_matrices (One (POp ab)) two_qubits 0%nat =
      inr (RMatrix
             (kron_all
                (map (fun p =>
                        if pyid_eqb (IdInt 0) (fst p)
                        then matmul (elementary (s_type_unique X0))
                                    (elementary (s_type_unique Z0))
                        else identity 2)
                     two_qubits)),
           2%nat).
Proof.
  split; [reflexivity|]. split; [reflexivity|]. split; [reflexivity|].
  apply (@leaves_on_one_subsystem_multiply GaussZ two_qubits
           (IdInt 0) "x" "z" None None 0); reflexivity.
Defined.

Lemma unsupported_type_is_reported_witness :
  let k := mkKey 1 (IdInt 0) "n" in
  all_qubits one_qubit = true /\
  forallb (term_ok one_qubit) [([kx 0], g 1 0)] = true /\
  forallb (key_ok one_qubit) [kz0 2] = true /\
  subsystems_get one_qubit (key_system_id k) <> None /\
  key_s_type_unique k <> "null" /\
  ~ In (key_s_type_unique k) two_level_types /\
  build_matrices
    (One (PDict ([([kx 0], g 1 0)] ++ ([kz0 2] ++ k :: [], g 2 0) :: [])))
    one_qubit 0%nat =
    inl (UnknownOperatorType "n" 2).
Proof.
  cbv zeta.
  assert (H1 : subsystems_get one_qubit (IdInt 0) <> None)
    by discriminate.
  assert (H2 : "n" <> "null") by discriminate.
  assert (H3 : ~ In "n" two_level_types)
    by (cbn; intuition discriminate).
  split; [reflexivity|]. split; [reflexivity|]. split; [reflexivity|].
  split; [exact H1|]. split; [exact H2|]. split; [exact H3|].
  exact (@unsupported_type_is_reported GaussZ one_qubit
           [([kx 0], g 1 0)] [kz0 2] (mkKey 1 (IdInt 0) "n") [] (g 2 0) []
           0 eq_refl eq_refl eq_refl H1 H2 H3).
Defined.

Lemma only_qubit_maps_are_realized_witness :
  In 3 (map snd [(IdInt 0, 2); (IdInt 1, 3)]) /\ 3 <> 2 /\
  One (POp X0) <> Many [] /\
  exists e,
    build_matrices (One (POp X0)) [(IdInt 0, 2); (IdInt 1, 3)] 0%nat =
    inl e.
Proof.
  split; [right; left; reflexivity|]. split; [discriminate|].
  split; [discriminate|].
  apply (only_qubit_maps_are_realized (One (POp X0))
           [(IdInt 0, 2); (IdInt 1, 3)] 3 0);
    [right; left; reflexivity|discriminate|discriminate].
Defined.

Lemma deepcopy_of_built_tree_witness :
  built X0_plus_Y0 /\ __deepcopy__ X0_plus_Y0 = X0_plus_Y0.
Proof.
  split; [exact built_X0_plus_Y0|].
  exact (deepcopy_of_built_tree X0_plus_Y0 built_X0_plus_Y0).
Defined.




Lemma list_of_dictionaries_realizes_elementwise_witness :
  let d1 : dict := [([kx 0], g 2 0)] in
  let d2 : dict := [([kz0 1; kx 2], g 0 1)] in
  let ms := [realize_dict one_qubit d1; realize_dict one_qubit d2] in
  one_qubit <> [] /\ [d1; d2] <> [] /\
  Forall2 (fun d m =>
             build_matrices (One (PDict d)) one_qubit 0%nat =
             inr (RMatrix m, 0%nat)) [d1; d2] ms /\
  build_matrices (Many (map PDict [d1; d2])) one_qubit 0%nat =
    inr (RList ms, 0%nat).
Proof.
  cbv zeta.
  assert (H : Forall2
                (fun d m =>
                   build_matrices (One (PDict d)) one_qubit 0%nat =
                   inr (RMatrix m, 0%nat))
                [[([kx 0], g 2 0)]; [([kz0 1; kx 2], g 0 1)]]
                [realize_dict one_qubit [([kx 0], g 2 0)];
                 realize_dict one_qubit [([kz0 1; kx 2], g 0 1)]]).
  { constructor; [reflexivity|]. constructor; [reflexivity|constructor]. }
  split; [discriminate|]. split; [discriminate|]. split; [exact H|].
  apply (list_of_dictionaries_realizes_elementwise one_qubit _ _ 0);
    [discriminate|discriminate|exact H].
Defined.

End MoreRuns.

(** ** Independence of the state of the heap *)
Section HeapIndependence.
Context {SC : Scalar}.
Add Ring scalar_ring_heap : c_ring.

Lemma tuple_match_shift (delta : nat) (a b : key_tuple) :
  tuple_match (map (shift_key delta) a) (map (shift_key delta) b) =
  tuple_match a b.
Proof.
  unfold tuple_match. f_equal.
  - revert b. induction a as [|x a IH]; intros [|y b]; cbn; try reflexivity.
    now rewrite IH.
  - revert b. induction a as [|x a IH]; intros [|y b]; cbn; try reflexivity.
    rewrite IH. f_equal. unfold key_eqb. cbn.
    destruct (Nat.eqb_spec (key_oid x) (key_oid y)),
             (Nat.eqb_spec (key_oid x + delta) (key_oid y + delta));
      try reflexivity; lia.
Qed.

Lemma shift_dict_cons (delta : nat) (k : key_tuple) (v : C) (d : dict) :
  shift_dict delta ((k, v) :: d) =
  (map (shift_key delta) k, v) :: shift_dict delta d.
Proof. reflexivity. Qed.

Lemma dict_get_shift (delta : nat) (d : dict) (k : key_tuple) (default : C) :
  dict_get (shift_dict delta d) (map (shift_key delta) k) default =
  dict_get d k default.
Proof.
  induction d as [|[k' v] d IH]; [reflexivity|].
  rewrite shift_dict_cons. cbn [dict_get].
  now rewrite tuple_match_shift, IH.
Qed.

Lemma dict_set_shift (delta : nat) (d : dict) (k : key_tuple) (v : C) :
  dict_set (shift_dict delta d) (map (shift_key delta) k) v =
  shift_dict delta (dict_set d k v).
Proof.
  induction d as [|[k' w] d IH]; [reflexivity|].
  rewrite shift_dict_cons. cbn [dict_set].
  rewrite tuple_match_shift.
  destruct (tuple_match k' k); rewrite ?shift_dict_cons; [reflexivity|].
  now rewrite IH.
Qed.

Lemma sum_items_shift (delta : nat) (od : dict) :
  forall res,
    sum_items (shift_dict delta res) (shift_dict delta od) =
    shift_dict delta (sum_items res od).
Proof.
  unfold sum_items.
  induction od as [|[k v] od IH]; intros res; [reflexivity|].
  rewrite shift_dict_cons. cbn [fold_left fst snd].
  rewrite dict_get_shift, dict_set_shift. apply IH.
Qed.

Lemma scale_fold_shift (delta : nat) (scalar : C) (l : dict) :
  forall d,
    fold_left (fun d kv => dict_set d (fst kv) (cmul (snd kv) scalar))
              (shift_dict delta l) (shift_dict delta d) =
    shift_dict delta
      (fold_left (fun d kv => dict_set d (fst kv) (cmul (snd kv) scalar))
                 l d).
Proof.
  induction l as [|[k v] l IH]; intros d; [reflexivity|].
  rewrite shift_dict_cons. cbn [fold_left fst snd].
  rewrite dict_set_shift. apply IH.
Qed.

Lemma scale_items_shift (delta : nat) (scalar : C) (d : dict) :
  scale_items (shift_dict delta d) scalar =
  shift_dict delta (scale_items d scalar).
Proof. apply scale_fold_shift. Qed.

Lemma product_items_shift (delta : nat) (d : dict) :
  forall acc,
    product_items (map (shift_key delta) (fst acc), snd acc)
                  (shift_dict delta d) =
    (map (shift_key delta) (fst (product_items acc d)),
     snd (product_items acc d)).
Proof.
  unfold product_items.
  induction d as [|[k v] d IH]; intros [ak av]; [reflexivity|].
  rewrite shift_dict_cons. cbn [fold_left fst snd].
  rewrite <- map_app. apply (IH (ak ++ k, cmul av v)).
Qed.

Lemma sum_loop_shift (delta : nat) (ops : list pyval) :
  Forall (fun v => match v with
                   | VOp o => forall n : nat, _build_one_dict o (n + delta)%nat =
                                        shifted delta (_build_one_dict o n)
                   | _ => True
                   end) ops ->
  forall res n,
    sum_loop _build_one_dict ops (shift_dict delta res) (n + delta)%nat =
    shifted delta (sum_loop _build_one_dict ops res n).
Proof.
  induction 1 as [|v ops Hv _ IH]; intros res n; cbn [sum_loop].
  - reflexivity.
  - destruct v as [o|c|t]; try reflexivity.
    unfold bind. rewrite Hv.
    destruct (_build_one_dict o n) as [e|[od n1]]; cbn [shifted];
      [reflexivity|].
    rewrite sum_items_shift. apply IH.
Qed.

Lemma product_loop_shift (delta : nat) (ops : list pyval) :
  Forall (fun v => match v with
                   | VOp o => forall n : nat, _build_one_dict o (n + delta)%nat =
                                        shifted delta (_build_one_dict o n)
                   | _ => True
                   end) ops ->
  forall acc n,
    product_loop _build_one_dict ops
      (map (shift_key delta) (fst acc), snd acc) (n + delta)%nat =
    shifted delta (product_loop _build_one_dict ops acc n).
Proof.
  induction 1 as [|v ops Hv _ IH]; intros acc n; cbn [product_loop].
  - destruct acc; reflexivity.
  - destruct v as [o|c|t]; try reflexivity.
    unfold bind. rewrite Hv.
    destruct (_build_one_dict o n) as [e|[od n1]]; cbn [shifted];
      [reflexivity|].
    rewrite product_items_shift. apply IH.
Qed.

(** Flattening from a later state of the heap gives the same dictionary
    with later key objects. *)
Lemma _build_one_dict_shift (delta : nat) (a : DynamicalOperator) :
  forall n,
    _build_one_dict a (n + delta)%nat = shifted delta (_build_one_dict a n).
Proof.
  induction a as [id st stu al ct ops IH] using operator_rect'.
  intros n. cbn [_build_one_dict].
  destruct (String.eqb ct "+"); [|destruct (String.eqb ct "@");
    [|destruct (String.eqb ct "*"); [|destruct (String.eqb ct "")]]].
  - apply (sum_loop_shift delta ops IH []).
  - apply (product_loop_shift delta ops IH ([], c1)).
  - unfold scalar_product.
    destruct ops as [|v1 [|v2 r]]; try reflexivity.
    destruct v1 as [o|c|t]; try reflexivity.
    inversion IH as [|? ? Ho _]; subst. cbn in Ho.
    unfold bind. rewrite Ho.
    destruct (_build_one_dict o n) as [e|[od n1]]; cbn [shifted];
      [reflexivity|].
    destruct v2 as [o2|c|t]; try reflexivity.
    unfold ret. cbn [shifted]. now rewrite scale_items_shift.
  - reflexivity.
  - reflexivity.
Qed.

Lemma key_loop_shift (self : builder) (delta : nat) (key : key_tuple) :
  forall s0,
    key_loop self (map (shift_key delta) key) s0 = key_loop self key s0.
Proof.
  induction key as [|k key IH]; intros s0; cbn [map key_loop];
    [reflexivity|].
  cbn [shift_key key_system_id key_s_type_unique].
  destruct (subsystems_get (_subsystems self) (key_system_id k));
    [|reflexivity].
  destruct (get_operator_matrix (key_s_type_unique k) z); cbn [rbind];
    [reflexivity|].
  apply IH.
Qed.

Lemma term_loop_shift (self : builder) (delta : nat) (d : dict) :
  forall m,
    term_loop self (shift_dict delta d) m = term_loop self d m.
Proof.
  induction d as [|[key val] d IH]; intros m; [reflexivity|].
  rewrite shift_dict_cons. cbn [term_loop]. rewrite key_loop_shift.
  destruct (key_loop self key []) as [e|s]; cbn [rbind]; [reflexivity|].
  destruct (kron_loop _ _ s None) as [op|]; [|reflexivity].
  destruct (iadd m (mscale val op)) as [e|m']; cbn [rbind]; [reflexivity|].
  apply IH.
Qed.

Lemma realize_one_shift (subsystems : subsystem_map) (delta : nat)
    (d : dict) :
  realize_one subsystems (shift_dict delta d) = realize_one subsystems d.
Proof.
  unfold realize_one, rbind.
  destruct (rmap (fun dim => get_operator_matrix "i" dim)
                 (map snd subsystems)) as [e|ids]; [reflexivity|].
  unfold _build_one_matrix, rbind.
  destruct (get_zeros_matrix _) as [e|z]; [reflexivity|].
  apply term_loop_shift.
Qed.

(** X21: the matrix that is returned, or the exception that is raised,
    does not depend on how many key objects exist when the call starts,
    although keys are compared by identity: only the number of objects
    allocated so far moves along. *)
Theorem realization_ignores_heap_state (a : DynamicalOperator)
    (subsystems : subsystem_map) (n delta : nat) :
  build_matrices (One (POp a)) subsystems (n + delta)%nat =
    match build_matrices (One (POp a)) subsystems n with
    | inl e => inl e
    | inr (r, n') => inr (r, (n' + delta)%nat)
    end.
Proof.
  destruct subsystems as [|p subsystems]; [reflexivity|].
  rewrite !build_matrices_one_op by discriminate.
  rewrite _build_one_dict_shift.
  destruct (_build_one_dict a n) as [e|[d n']]; cbn [shifted];
    [reflexivity|].
  rewrite realize_one_shift.
  destruct (realize_one (p :: subsystems) d) as [e|m]; reflexivity.
Qed.












End HeapIndependence.

(** ** Runs of the heap-independent properties *)
Module HeapRuns.
Import Inputs MoreInputs.



End HeapRuns.
